(** * Container log parsing and verification (pkg/validate/container.go)

    A shallow embedding of the log-reading helpers of the CRI validation
    suite: [parseDockerJSONLog], [parseCRILog], [parseLogLine] and
    [verifyLogContents], together with the parts of the Go standard
    library they call ([strings.SplitN], [strings.HasPrefix],
    [bufio.Scanner] with its default line splitter).

    Go strings are byte sequences; they are modelled by [string], whose
    characters are 8-bit [ascii] values.  Go [int]s are modelled by [Z]. *)

From Stdlib Require Import String Ascii List ZArith Lia Bool.
Import ListNotations.
Local Open Scope string_scope.
Local Open Scope Z_scope.

(** ** Control flow: normal return, failed assertion, run-time panic *)

(** Go's [error] values are only ever reported, never inspected, by the
    code below; their message is all that is kept. *)
Definition error := string.

(** How a call can stop without returning.  [AssertionFailure] is a
    failed Gomega expectation (Ginkgo's [Fail] unwinds the running
    scenario); [IndexOutOfRange i n] is the Go run-time panic
    "index out of range [i] with length n". *)
Inductive abort : Type :=
| AssertionFailure (explain : string) (err : error)
| ExpectationFailure (explain : string)
| IndexOutOfRange (i n : Z).

Inductive outcome (A : Type) : Type :=
| Ok (a : A)
| Abort (e : abort).
Arguments Ok {A} a.
Arguments Abort {A} e.

Definition bind {A B : Type} (m : outcome A) (k : A -> outcome B) : outcome B :=
  match m with
  | Ok a => k a
  | Abort e => Abort e
  end.

Notation "x <- m ;; k" := (bind m (fun x => k))
  (at level 61, m at next level, right associativity).
Notation "m ;;; k" := (bind m (fun _ => k))
  (at level 61, right associativity).

(** Modelled from the spec: [framework.ExpectNoError] lives in
    pkg/framework, which is not part of the sources at hand.  The spec's
    error taxonomy makes every unexpected non-nil error fatal to the
    calling scenario, surfacing as an immediate test failure; a nil error
    lets the caller continue. *)
Definition ExpectNoError (err : option error) (explain : string) : outcome unit :=
  match err with
  | None => Ok tt
  | Some e => Abort (AssertionFailure explain e)
  end.

(** ** The Go standard library, as far as the parser uses it *)

Module Go.

Definition len (s : string) : Z := Z.of_nat (String.length s).

(** [s[:j]] and [s[i:]]. *)
Fixpoint take (n : nat) (s : string) {struct s} : string :=
  match s with
  | EmptyString => EmptyString
  | String c s' =>
      match n with
      | O => EmptyString
      | S n' => String c (take n' s')
      end
  end.

Fixpoint drop (n : nat) (s : string) {struct s} : string :=
  match s with
  | EmptyString => EmptyString
  | String _ s' =>
      match n with
      | O => s
      | S n' => drop n' s'
      end
  end.

Definition slice_to (s : string) (j : Z) : string := take (Z.to_nat j) s.
Definition slice_from (s : string) (i : Z) : string := drop (Z.to_nat i) s.

(** [a[i]] on a slice: panics outside [0 <= i < len(a)]. *)
Definition index {A : Type} (a : list A) (i : Z) : outcome A :=
  if i <? 0 then Abort (IndexOutOfRange i (Z.of_nat (length a)))
  else match nth_error a (Z.to_nat i) with
       | Some x => Ok x
       | None => Abort (IndexOutOfRange i (Z.of_nat (length a)))
       end.

(** [strings.HasPrefix]. *)
Fixpoint HasPrefix (s prefix : string) {struct prefix} : bool :=
  match prefix with
  | EmptyString => true
  | String c prefix' =>
      match s with
      | EmptyString => false
      | String d s' => Ascii.eqb d c && HasPrefix s' prefix'
      end
  end.

(** [strings.Index]: position of the first occurrence of [substr] in
    [s], or [-1]. *)
Fixpoint Index (s substr : string) : Z :=
  if HasPrefix s substr then 0
  else match s with
       | EmptyString => -1
       | String _ s' =>
           let m := Index s' substr in
           if m <? 0 then -1 else m + 1
       end.

(** The loop of [strings.genSplit], [k] counting the iterations that
    remain ([n - 1 - i] in the Go code). *)
Fixpoint genSplit_loop (k : nat) (s sep : string) : list string :=
  match k with
  | O => [s]
  | S k' =>
      let m := Index s sep in
      if m <? 0 then [s]
      else slice_to s m :: genSplit_loop k' (slice_from s (m + len sep)) sep
  end.

(** [explode], bytewise (Go cuts at UTF-8 sequence boundaries, which
    is the same on ASCII text). *)
Fixpoint explode (k : nat) (s : string) : list string :=
  match s with
  | EmptyString => []
  | String c s' =>
      match k with
      | O => [s]
      | S k' => String c EmptyString :: explode k' s'
      end
  end.

(** [strings.SplitN(s, sep, n)]: at most [n] pieces, the last one the
    unsplit remainder; [n < 0] means no limit; [n = 0] gives nil. *)
Definition SplitN (s sep : string) (n : Z) : list string :=
  if n =? 0 then []
  else
    let k := if n <? 0 then String.length s else Z.to_nat (n - 1) in
    match sep with
    | EmptyString => explode k s
    | _ => genSplit_loop k s sep
    end.

End Go.

(** [bufio.Scanner] with its default split function [ScanLines]. *)
Module Bufio.
Import Go.

Definition MaxScanTokenSize : Z := 64 * 1024.
Definition ErrTooLong : error := "bufio.Scanner: token too long".

Definition LF : string := String "010"%char EmptyString.
Definition CR : ascii := "013"%char.

(** [dropCR] drops one terminal carriage return. *)
Fixpoint dropCR (data : string) : string :=
  match data with
  | EmptyString => EmptyString
  | String c rest =>
      match rest with
      | EmptyString => if Ascii.eqb c CR then EmptyString else data
      | String _ _ => String c (dropCR rest)
      end
  end.

(** [ScanLines(data, atEOF)]: how far to advance and the token found,
    if any. *)
Definition ScanLines (data : string) (atEOF : bool) : Z * option string :=
  if atEOF && (len data =? 0) then (0, None)
  else
    let i := Index data LF in
    if 0 <=? i then (i + 1, Some (dropCR (slice_to data i)))
    else if atEOF then (len data, Some (dropCR data))
    else (0, None).

(** A scanner over a file whose unread content is [src].  [text] is the
    token of the last successful [Scan]; [err] the first error met. *)
Record Scanner : Type := mkScanner
  { src : string; text : string; err : option error }.

Definition NewScanner (content : string) : Scanner :=
  mkScanner content EmptyString None.

(** [Scan]: the split function sees what fits in the buffer, which
    never grows beyond [MaxScanTokenSize] bytes; the end of the file is
    seen only while the buffer is not full.  A full buffer without a
    token is [ErrTooLong]. *)
Definition Scan (s : Scanner) : bool * Scanner :=
  match err s with
  | Some _ => (false, s)
  | None =>
      let window := slice_to (src s) MaxScanTokenSize in
      let atEOF := len (src s) <? MaxScanTokenSize in
      match ScanLines window atEOF with
      | (advance, Some token) =>
          (true, mkScanner (slice_from (src s) advance) token None)
      | (_, None) =>
          if atEOF then (false, s)
          else (false, mkScanner (src s) (text s) (Some ErrTooLong))
      end
  end.

Definition Text (s : Scanner) : string := text s.
Definition Err (s : Scanner) : option error := err s.

End Bufio.

(** [jsonlog.JSONLog] of docker/pkg/jsonlog, with the three fields the
    parser reads ([Attrs] is never looked at). *)
Record JSONLog (Time : Type) : Type := mkJSONLog
  { Log : string; Stream : string; Created : Time }.
Arguments mkJSONLog {Time} _ _ _.
Arguments Log {Time} _.
Arguments Stream {Time} _.
Arguments Created {Time} _.

(** What the parser takes from outside the repository: [time.Time] with
    its zero value, [time.Parse], [json.Unmarshal] into a [JSONLog], and
    [filepath.Join].  A result is either the value or the error. *)
Class GoRuntime (Time : Type) : Type :=
  { zeroTime : Time;
    time_Parse : string -> string -> Time + error;
    json_Unmarshal : string -> JSONLog Time + error;
    filepath_Join : string -> string -> string }.

Definition RFC3339Nano : string := "2006-01-02T15:04:05.999999999Z07:00".

(** The file system as [os.Open] followed by reading sees it: the
    content of the file at a path, or the error of opening it.  Reading
    an open file is taken to succeed; the one scan error kept is the
    scanner's own, a line too long for its buffer. *)
Definition FileSystem : Type := string -> string + error.

(** ** pkg/validate/container.go *)

(** [streamType] is the type of the stream. *)
Definition streamType : Type := string.

Definition defaultLog : string := "hello World".
Definition stdoutType : streamType := "stdout".
Definition stderrType : streamType := "stderr".

(** [logMessage] is the internal log type. *)
Record logMessage (Time : Type) : Type := mkLogMessage
  { timestamp : Time; stream : streamType; log : string }.
Arguments mkLogMessage {Time} _ _ _.
Arguments timestamp {Time} _.
Arguments stream {Time} _.
Arguments log {Time} _.

(** [runtimeapi.PodSandboxConfig], of which only the log directory is
    read here. *)
Record PodSandboxConfig : Type := mkPodSandboxConfig
  { LogDirectory : string }.

Section Validate.
Context {Time : Type} {RT : GoRuntime Time}.
Import Go Bufio.

(** Field assignments [msg.timestamp = v], [msg.stream = v] and
    [msg.log = v] through the pointer the parsers receive. *)
Definition set_timestamp (msg : logMessage Time) (v : Time) : logMessage Time :=
  mkLogMessage v (stream msg) (log msg).
Definition set_stream (msg : logMessage Time) (v : streamType) : logMessage Time :=
  mkLogMessage (timestamp msg) v (log msg).
Definition set_log (msg : logMessage Time) (v : string) : logMessage Time :=
  mkLogMessage (timestamp msg) (stream msg) v.

(** [var msg logMessage]. *)
Definition zeroLogMessage : logMessage Time :=
  mkLogMessage zeroTime EmptyString EmptyString.

Definition result_err {A : Type} (r : A + error) : option error :=
  match r with
  | inl _ => None
  | inr e => Some e
  end.

(** [parseDockerJSONLog] parses logs in Docker JSON log format. *)
Definition parseDockerJSONLog (log : string) (msg : logMessage Time)
  : outcome (logMessage Time) :=
  let r := json_Unmarshal log in
  ExpectNoError (result_err r) "failed with %v to unmarshal log %q" ;;;
  match r with
  | inl l =>
      let msg := set_timestamp msg (Created l) in
      let msg := set_stream msg (Stream l) in
      let msg := set_log msg (Log l) in
      Ok msg
  | inr _ => Ok msg
  end.

(** [parseCRILog] parses logs in CRI log format. *)
Definition parseCRILog (log : string) (msg : logMessage Time)
  : outcome (logMessage Time) :=
  let logMessage := SplitN log " " 4 in
  (if len log <? 4
   then ExpectNoError (Some "invalid CRI log") "failed to parse CRI log: %v"
   else Ok tt) ;;;
  first <- index logMessage 0 ;;
  let r := time_Parse RFC3339Nano first in
  ExpectNoError (result_err r) "failed to parse timeStamp: %v" ;;;
  stream <- index logMessage 1 ;;
  let msg := match r with
             | inl timeStamp => set_timestamp msg timeStamp
             | inr _ => msg
             end in
  let msg := set_stream msg stream in
  (* Skip the tag field. *)
  content <- index logMessage 3 ;;
  let msg := set_log msg (content ++ LF) in
  Ok msg.

(** The branch inside the loop of [parseLogLine] that determines
    whether the log is Docker format or CRI format. *)
Definition decodeLine (line : string) (msg : logMessage Time)
  : outcome (logMessage Time) :=
  if HasPrefix line "{" then parseDockerJSONLog line msg
  else parseCRILog line msg.

(** The [for scanner.Scan()] loop of [parseLogLine] and the check of
    [scanner.Err()] after it.  Every successful [Scan] consumes at
    least one byte, so [fuel] at or above the length of the unread
    content is never used up ([parseLogLine_loop_canon] below). *)
Fixpoint parseLogLine_loop (fuel : nat) (scanner : Scanner)
    (msg : logMessage Time) (msgLog : list (logMessage Time))
  : outcome (list (logMessage Time)) :=
  match Scan scanner with
  | (true, scanner) =>
      match fuel with
      | O => Ok msgLog
      | S fuel' =>
          let line := Text scanner in
          msg <- decodeLine line msg ;;
          parseLogLine_loop fuel' scanner msg (msgLog ++ [msg])
      end
  | (false, scanner) =>
      ExpectNoError (Err scanner) "failed to read log by row: %v" ;;;
      Ok msgLog
  end.

(** [parseLogLine] parses log by row. *)
Definition parseLogLine (fs : FileSystem) (podConfig : PodSandboxConfig)
    (logPath : string) : outcome (list (logMessage Time)) :=
  let path := filepath_Join (LogDirectory podConfig) logPath in
  let f := fs path in
  ExpectNoError (result_err f) "failed to open log file: %v" ;;;
  match f with
  | inl content =>
      let msg := zeroLogMessage in
      let msgLog := [] in
      let scanner := NewScanner content in
      parseLogLine_loop (String.length content) scanner msg msgLog
  | inr _ => Ok []
  end.

(** The scan of [verifyLogContents]: [found] is set, and the loop
    left, at the first message equal in both [log] and [stream]. *)
Fixpoint verifyLogContents_scan (msgs : list (logMessage Time))
    (log0 : string) (stream0 : streamType) (found : bool) : bool :=
  match msgs with
  | [] => found
  | msg :: msgs' =>
      if String.eqb (log msg) log0 && String.eqb (stream msg) stream0
      then true
      else verifyLogContents_scan msgs' log0 stream0 found
  end.

(** The spec's [containsMessage]: the scan started with
    [found := false]. *)
Definition containsMessage (msgs : list (logMessage Time))
    (log0 : string) (stream0 : streamType) : bool :=
  verifyLogContents_scan msgs log0 stream0 false.

(** [verifyLogContents] verifies the contents of container log. *)
Definition verifyLogContents (fs : FileSystem) (podConfig : PodSandboxConfig)
    (logPath : string) (log0 : string) (stream0 : streamType) : outcome unit :=
  msgs <- parseLogLine fs podConfig logPath ;;
  let found := containsMessage msgs log0 stream0 in
  if found then Ok tt
  else Abort (ExpectationFailure "expected log %q (stream=%q) not found in logs %+v").

End Validate.

(** ** Containers and mounts

    [runtimeapi.Container] and [runtimeapi.Mount] are generated protobuf
    messages; the helpers below read one field of each.  The slices hold
    pointers, so an element is a message or nil. *)
Record Container : Type := mkContainer { Id : string }.
Record Mount : Type := mkMount { Name : string }.

(** A call that reads a field through a pointer returns, or stops with
    the run-time panic of a nil pointer dereference. *)
Inductive deref (A : Type) : Type :=
| Returns (a : A)
| NilDereference.
Arguments Returns {A} a.
Arguments NilDereference {A}.

(** The generated getter [GetName] of [Mount]: the name, or the empty
    string on a nil receiver. *)
Definition GetName (m : option Mount) : string :=
  match m with
  | Some m => Name m
  | None => EmptyString
  end.

(** [containerFound] returns whether containers is found. *)
Fixpoint containerFound (containers : list (option Container))
    (containerID : string) : deref bool :=
  match containers with
  | [] => Returns false
  | container :: containers' =>
      match container with
      | None => NilDereference
      | Some c =>
          if String.eqb (Id c) containerID then Returns true
          else containerFound containers' containerID
      end
  end.

(** [mountFound] returns whether mounts is found. *)
Fixpoint mountFound (mounts : list (option Mount)) (mountName : string)
  : deref bool :=
  match mounts with
  | [] => Returns false
  | mount :: mounts' =>
      match mount with
      | None => NilDereference
      | Some m =>
          if String.eqb (Name m) mountName then Returns true
          else mountFound mounts' mountName
      end
  end.

(** [getContainerVolumeNamed]: the first name that is not empty. *)
Fixpoint getContainerVolumeNamed (mounts : list (option Mount)) : string :=
  match mounts with
  | [] => EmptyString
  | v :: mounts' =>
      let volumeName := GetName v in
      if negb (String.eqb volumeName EmptyString) then volumeName
      else getContainerVolumeNamed mounts'
  end.

(** ** A runtime to run the model on

    [time.Parse] and [json.Unmarshal] are Go library code.  The theorems
    below hold for any [GoRuntime]; to evaluate the parser on concrete
    log lines, [Sample] gives one instance: RFC 3339 timestamps with an
    optional fraction and a [Z] or [+hh:mm] zone, and flat JSON objects
    with string members, which is the shape Docker's json-file logger
    writes. *)
Module Sample.
Import Go.

Record Time : Type := mkTime
  { year : Z; month : Z; day : Z;
    hour : Z; minute : Z; second : Z;
    nanosecond : Z;
    offset : Z (* seconds east of UTC *) }.

Definition obind {A B : Type} (m : option A) (k : A -> option B) : option B :=
  match m with
  | Some a => k a
  | None => None
  end.
Notation "x <-? m ;; k" := (obind m (fun x => k))
  (at level 61, m at next level, right associativity).

Definition digit (c : ascii) : option Z :=
  let n := Z.of_nat (nat_of_ascii c) in
  if (48 <=? n) && (n <=? 57) then Some (n - 48) else None.

Definition digits2 (s : string) : option (Z * string) :=
  match s with
  | String a (String b rest) =>
      x <-? digit a ;; y <-? digit b ;; Some (10 * x + y, rest)
  | _ => None
  end.

Definition digits4 (s : string) : option (Z * string) :=
  p <-? digits2 s ;; q <-? digits2 (snd p) ;;
  Some (100 * fst p + fst q, snd q).

Definition expect (c : ascii) (s : string) : option string :=
  match s with
  | String d rest => if Ascii.eqb d c then Some rest else None
  | EmptyString => None
  end.

(** A run of digits read as a fraction of a second, in nanoseconds;
    [scale] is the weight of the next digit. *)
Fixpoint fraction (scale : Z) (s : string) : Z * string :=
  match s with
  | String c rest =>
      match digit c with
      | Some d => let (n, rest') := fraction (scale / 10) rest in
                  (d * scale + n, rest')
      | None => (0, s)
      end
  | EmptyString => (0, s)
  end.

Definition fracSecond (s : string) : Z * string :=
  match s with
  | String "." (String c rest) =>
      match digit c with
      | Some _ => fraction 100000000 (String c rest)
      | None => (0, s)
      end
  | _ => (0, s)
  end.

Definition zone (s : string) : option (Z * string) :=
  match s with
  | String "Z" rest => Some (0, rest)
  | String sign rest =>
      sgn <-? (if Ascii.eqb sign "+" then Some 1
               else if Ascii.eqb sign "-" then Some (-1) else None) ;;
      h <-? digits2 rest ;;
      rest <-? expect ":" (snd h) ;;
      m <-? digits2 rest ;;
      if (fst h <? 24) && (fst m <? 60)
      then Some (sgn * (fst h * 3600 + fst m * 60), snd m)
      else None
  | EmptyString => None
  end.

Definition leap (y : Z) : bool :=
  (y mod 4 =? 0) && (negb (y mod 100 =? 0) || (y mod 400 =? 0)).

Definition daysIn (m y : Z) : Z :=
  if m =? 2 then (if leap y then 29 else 28)
  else if (m =? 4) || (m =? 6) || (m =? 9) || (m =? 11) then 30
  else 31.

Definition rfc3339 (value : string) : option Time :=
  y <-? digits4 value ;;
  s <-? expect "-" (snd y) ;;
  mo <-? digits2 s ;;
  s <-? expect "-" (snd mo) ;;
  d <-? digits2 s ;;
  s <-? expect "T" (snd d) ;;
  h <-? digits2 s ;;
  s <-? expect ":" (snd h) ;;
  mi <-? digits2 s ;;
  s <-? expect ":" (snd mi) ;;
  se <-? digits2 s ;;
  let (ns, s) := fracSecond (snd se) in
  z <-? zone s ;;
  match snd z with
  | EmptyString =>
      if (1 <=? fst mo) && (fst mo <=? 12) && (1 <=? fst d)
         && (fst d <=? daysIn (fst mo) (fst y))
         && (fst h <? 24) && (fst mi <? 60) && (fst se <? 60)
      then Some (mkTime (fst y) (fst mo) (fst d) (fst h) (fst mi) (fst se)
                        ns (fst z))
      else None
  | String _ _ => None
  end.

Definition parseTime (layout value : string) : Time + error :=
  if String.eqb layout RFC3339Nano then
    match rfc3339 value with
    | Some t => inl t
    | None => inr ("parsing time: cannot parse " ++ value)
    end
  else inr "parsing time: layout not supported".

Definition epoch : Time := mkTime 1 1 1 0 0 0 0 0.

Definition DQ : ascii := "034"%char.

Fixpoint skipSpace (s : string) : string :=
  match s with
  | String " " rest => skipSpace rest
  | _ => s
  end.

(** The characters of a JSON string after its opening quote, with the
    two-character escapes decoded, and what follows the closing quote. *)
Fixpoint stringBody (s : string) : option (string * string) :=
  match s with
  | EmptyString => None
  | String c rest =>
      if Ascii.eqb c DQ then Some (EmptyString, rest)
      else if Ascii.eqb c "\" then
        match rest with
        | String e rest' =>
            d <-? (if Ascii.eqb e "n" then Some "010"%char
                   else if Ascii.eqb e "t" then Some "009"%char
                   else if Ascii.eqb e "r" then Some "013"%char
                   else if Ascii.eqb e "\" then Some "\"%char
                   else if Ascii.eqb e "/" then Some "/"%char
                   else if Ascii.eqb e DQ then Some DQ
                   else None) ;;
            p <-? stringBody rest' ;;
            Some (String d (fst p), snd p)
        | EmptyString => None
        end
      else if Z.of_nat (nat_of_ascii c) <? 32 then None
      else p <-? stringBody rest ;; Some (String c (fst p), snd p)
  end.

Definition jsonString (s : string) : option (string * string) :=
  s <-? expect DQ s ;; stringBody s.

Definition setMember (l : JSONLog Time) (key value : string)
  : option (JSONLog Time) :=
  if String.eqb key "log" then Some (mkJSONLog value (Stream l) (Created l))
  else if String.eqb key "stream" then Some (mkJSONLog (Log l) value (Created l))
  else if String.eqb key "time" then
    t <-? rfc3339 value ;; Some (mkJSONLog (Log l) (Stream l) t)
  else Some l.

(** The members of an object after its opening brace. *)
Fixpoint members (fuel : nat) (s : string) (l : JSONLog Time)
  : option (JSONLog Time) :=
  match fuel with
  | O => None
  | S fuel' =>
      k <-? jsonString (skipSpace s) ;;
      s <-? expect ":" (skipSpace (snd k)) ;;
      v <-? jsonString (skipSpace s) ;;
      l <-? setMember l (fst k) (fst v) ;;
      match skipSpace (snd v) with
      | String "," rest => members fuel' rest l
      | String "}" rest =>
          match skipSpace rest with
          | EmptyString => Some l
          | String _ _ => None
          end
      | _ => None
      end
  end.

Definition unmarshal (data : string) : JSONLog Time + error :=
  let zero := mkJSONLog EmptyString EmptyString epoch in
  let r :=
    s <-? expect "{" (skipSpace data) ;;
    match skipSpace s with
    | String "}" rest =>
        match skipSpace rest with
        | EmptyString => Some zero
        | String _ _ => None
        end
    | _ => members (String.length s) s zero
    end in
  match r with
  | Some l => inl l
  | None => inr "json: cannot unmarshal into Go value of type jsonlog.JSONLog"
  end.

(** [filepath.Join] of a directory and a relative file name, both
    already clean. *)
Definition joinPath (dir file : string) : string :=
  if String.eqb dir EmptyString then file
  else if String.eqb file EmptyString then dir
  else dir ++ "/" ++ file.

#[global] Instance runtime : GoRuntime Time :=
  {| zeroTime := epoch;
     time_Parse := parseTime;
     json_Unmarshal := unmarshal;
     filepath_Join := joinPath |}.

Definition quoted (s : string) : string :=
  String DQ s ++ String DQ EmptyString.

(** {"log":"hello World\n","stream":"stdout","time":"2016-10-20T18:39:20.57606443Z"} *)
Definition dockerLine : string :=
  "{" ++ quoted "log" ++ ":" ++ quoted "hello World\n" ++ ","
      ++ quoted "stream" ++ ":" ++ quoted "stdout" ++ ","
      ++ quoted "time" ++ ":" ++ quoted "2016-10-20T18:39:20.57606443Z" ++ "}".

Definition criLine : string :=
  "2016-10-06T00:17:09.669794202Z stdout F hello world".

Definition podConfig : PodSandboxConfig := mkPodSandboxConfig "/var/log/pods/sandbox".

(** A log directory with one CRI log of two lines, one Docker JSON
    log of one line, and an empty log. *)
Definition fs : FileSystem := fun path =>
  if String.eqb path "/var/log/pods/sandbox/cri.log"
  then inl (criLine ++ Bufio.LF
            ++ "2016-10-06T00:17:10.113242941Z stderr F bye" ++ Bufio.LF)
  else if String.eqb path "/var/log/pods/sandbox/docker.log"
  then inl (dockerLine ++ Bufio.LF)
  else if String.eqb path "/var/log/pods/sandbox/empty.log"
  then inl EmptyString
  else inr "open: no such file or directory".

End Sample.

(** ** Vocabulary of the specification *)

(** The two encodings of a log line, and the test [parseLogLine] makes
    to choose between them. *)
Inductive encoding : Type := EncodingA | EncodingB.

Definition detect (line : string) : encoding :=
  if Go.HasPrefix line "{" then EncodingA else EncodingB.

(** The first character of a line that is not a space, as the
    specification words the format detection. *)
Fixpoint firstNonSpace (line : string) : option ascii :=
  match line with
  | EmptyString => None
  | String c rest => if Ascii.eqb c " " then firstNonSpace rest else Some c
  end.

(** The failure classes of the specification's taxonomy, and the class
    of each way the code stops. *)
Inductive failureKind : Type :=
| MalformedRecord | IOError | NotFound | RuntimePanic.

Definition classify (e : abort) : failureKind :=
  match e with
  | AssertionFailure explain _ =>
      if String.eqb explain "failed to open log file: %v"
         || String.eqb explain "failed to read log by row: %v"
      then IOError else MalformedRecord
  | ExpectationFailure _ => NotFound
  | IndexOutOfRange _ _ => RuntimePanic
  end.

(** Whether byte [c] occurs in [s]. *)
Fixpoint hasByte (c : ascii) (s : string) : bool :=
  match s with
  | EmptyString => false
  | String d s' => Ascii.eqb d c || hasByte c s'
  end.

(** How many times byte [c] occurs in [s]. *)
Fixpoint countByte (c : ascii) (s : string) : nat :=
  match s with
  | EmptyString => O
  | String d s' => (if Ascii.eqb d c then 1 else 0) + countByte c s'
  end.

(** A file written line by line: every line followed by a newline. *)
Fixpoint unlines (ls : list string) : string :=
  match ls with
  | [] => EmptyString
  | l :: ls' => l ++ Bufio.LF ++ unlines ls'
  end.

(** A line the scanner can hold: no newline inside, and short enough
    for the buffer. *)
Definition scannable (l : string) : Prop :=
  hasByte "010" l = false /\ Go.len l < Bufio.MaxScanTokenSize.

(** The physical lines of a file: the maximal newline-free segments,
    each without its terminating newline.  A last segment that no
    newline ends counts when it is not empty.  [cur] collects the
    segment being read. *)
Fixpoint physicalLines_from (cur content : string) : list string :=
  match content with
  | EmptyString =>
      match cur with
      | EmptyString => []
      | String _ _ => [cur]
      end
  | String c rest =>
      if Ascii.eqb c "010"
      then cur :: physicalLines_from EmptyString rest
      else physicalLines_from (cur ++ String c EmptyString) rest
  end.

Definition physicalLines (content : string) : list string :=
  physicalLines_from EmptyString content.

(** A last line without terminating newline, if there is one. *)
Definition lastLine (last : string) : list string :=
  match last with
  | EmptyString => []
  | String _ _ => [last]
  end.

(** The specification's reading of [readAll]: every line is handed to
    the decoder on its own, with a fresh record, and the records are
    collected in the order of the lines. *)
Fixpoint decodeEach {Time : Type} {RT : GoRuntime Time} (lines : list string)
  : outcome (list (logMessage Time)) :=
  match lines with
  | [] => Ok []
  | line :: lines' =>
      m <- decodeLine line zeroLogMessage ;;
      ms <- decodeEach lines' ;;
      Ok (m :: ms)
  end.

(** ** Facts about Go strings *)

Section StringFacts.
Import Go.

Lemma len_nonneg s : 0 <= len s.
Proof. unfold len. lia. Qed.

Lemma len_String c s : len (String c s) = len s + 1.
Proof. unfold len. cbn [String.length]. lia. Qed.

Lemma length_app (a b : string) :
  String.length (a ++ b) = (String.length a + String.length b)%nat.
Proof. induction a as [|c a IH]; cbn; [reflexivity | now rewrite IH]. Qed.

Lemma len_app a b : len (a ++ b) = len a + len b.
Proof. unfold len. rewrite length_app. lia. Qed.

Lemma app_assoc_s (a b c : string) : (a ++ b) ++ c = a ++ b ++ c.
Proof. induction a as [|x a IH]; cbn; [reflexivity | now rewrite IH]. Qed.

Lemma app_empty_r (a : string) : a ++ "" = a.
Proof. induction a as [|x a IH]; cbn; [reflexivity | now rewrite IH]. Qed.

Lemma hasByte_app c a b : hasByte c (a ++ b) = hasByte c a || hasByte c b.
Proof.
  induction a as [|d a IH]; cbn; [reflexivity|].
  rewrite IH. now rewrite orb_assoc.
Qed.

Lemma take_0 s : take 0 s = "".
Proof. now destruct s. Qed.

Lemma drop_0 s : drop 0 s = s.
Proof. now destruct s. Qed.

Lemma take_app a b : take (String.length a) (a ++ b) = a.
Proof.
  induction a as [|c a IH]; cbn; [apply take_0 | now rewrite IH].
Qed.

Lemma drop_app a b : drop (String.length a) (a ++ b) = b.
Proof. induction a as [|c a IH]; cbn; [apply drop_0 | exact IH]. Qed.

Lemma take_all n s : (String.length s <= n)%nat -> take n s = s.
Proof.
  revert n. induction s as [|c s IH]; intros n H; [reflexivity|].
  destruct n as [|n]; cbn in *; [lia|].
  rewrite IH by lia. reflexivity.
Qed.

Lemma hasByte_take c n s : hasByte c s = false -> hasByte c (take n s) = false.
Proof.
  revert n. induction s as [|d s IH]; intros n H; [reflexivity|].
  destruct n as [|n]; [reflexivity|]. cbn in *.
  apply orb_false_iff in H as [H1 H2]. rewrite H1, IH; auto.
Qed.

Lemma hasByte_drop c n s : hasByte c s = false -> hasByte c (drop n s) = false.
Proof.
  revert n. induction s as [|d s IH]; intros n H; [reflexivity|].
  destruct n as [|n]; [exact H|]. cbn in *.
  apply orb_false_iff in H as [H1 H2]. auto.
Qed.

Lemma HasPrefix_byte d s c :
  HasPrefix (String d s) (String c "") = Ascii.eqb d c.
Proof. cbn. apply andb_true_r. Qed.

Lemma Index_absent c s :
  hasByte c s = false -> Index s (String c "") = -1.
Proof.
  induction s as [|d s IH]; intros H; [reflexivity|].
  cbn in H. apply orb_false_iff in H as [H1 H2].
  cbn [Index]. rewrite HasPrefix_byte, H1, (IH H2). reflexivity.
Qed.

Lemma Index_first c a b :
  hasByte c a = false -> Index (a ++ String c b) (String c "") = len a.
Proof.
  induction a as [|d a IH]; intros H.
  - cbn [append Index]. rewrite HasPrefix_byte, Ascii.eqb_refl. reflexivity.
  - cbn in H. apply orb_false_iff in H as [H1 H2].
    cbn [append Index]. rewrite HasPrefix_byte, H1, (IH H2), len_String.
    pose proof (len_nonneg a).
    destruct (Z.ltb_spec (len a) 0); lia.
Qed.

Lemma slice_to_len a b : slice_to (a ++ b) (len a) = a.
Proof. unfold slice_to, len. rewrite Nat2Z.id. apply take_app. Qed.

Lemma slice_from_len a b : slice_from (a ++ b) (len a) = b.
Proof. unfold slice_from, len. rewrite Nat2Z.id. apply drop_app. Qed.

Lemma slice_from_sep a c b :
  slice_from (a ++ String c b) (len a + len (String c "")) = b.
Proof.
  replace (a ++ String c b) with ((a ++ String c "") ++ b)
    by (rewrite app_assoc_s; reflexivity).
  rewrite <- len_app. apply slice_from_len.
Qed.

(** One turn of the splitting loop cuts at the first separator. *)
Lemma genSplit_loop_cut k c a b :
  hasByte c a = false ->
  genSplit_loop (S k) (a ++ String c b) (String c "")
  = a :: genSplit_loop k b (String c "").
Proof.
  intros H. cbn [genSplit_loop]. rewrite (Index_first c a b H).
  pose proof (len_nonneg a).
  destruct (Z.ltb_spec (len a) 0); [lia|].
  rewrite slice_to_len, slice_from_sep. reflexivity.
Qed.

(** The four segments of a CRI line. *)
Lemma SplitN_four ts st tag content :
  hasByte " " ts = false -> hasByte " " st = false ->
  hasByte " " tag = false ->
  SplitN (ts ++ " " ++ st ++ " " ++ tag ++ " " ++ content) " " 4
  = [ts; st; tag; content].
Proof.
  intros H1 H2 H3. unfold SplitN.
  change (4 =? 0) with false. change (4 <? 0) with false.
  change (Z.to_nat (4 - 1)) with 3%nat. cbv iota.
  change (" " ++ st ++ " " ++ tag ++ " " ++ content)
    with (String " " (st ++ " " ++ tag ++ " " ++ content)).
  rewrite genSplit_loop_cut by assumption.
  change (" " ++ tag ++ " " ++ content)
    with (String " " (tag ++ " " ++ content)).
  rewrite genSplit_loop_cut by assumption.
  change (" " ++ content) with (String " " content).
  rewrite genSplit_loop_cut by assumption.
  reflexivity.
Qed.

(** Every piece of a split is free of a byte the whole is free of. *)
Lemma genSplit_loop_hasByte c k s sep :
  hasByte c s = false ->
  Forall (fun p => hasByte c p = false) (genSplit_loop k s sep).
Proof.
  revert s. induction k as [|k IH]; intros s H; cbn [genSplit_loop].
  - constructor; auto.
  - destruct (Index s sep <? 0); [constructor; auto|].
    constructor.
    + apply hasByte_take, H.
    + apply IH, hasByte_drop, H.
Qed.

Lemma genSplit_loop_length k s sep :
  (1 <= length (genSplit_loop k s sep) <= S k)%nat.
Proof.
  revert s. induction k as [|k IH]; intros s; cbn [genSplit_loop].
  - cbn. lia.
  - destruct (Index s sep <? 0); cbn [length]; [lia|].
    specialize (IH (slice_from s (Index s sep + len sep))). lia.
Qed.

End StringFacts.

(** ** The two decoders *)

Section DecoderFacts.
Context {Time : Type} {RT : GoRuntime Time}.
Import Go Bufio.

(** The guard of [parseCRILog] passes, or stops the call. *)
Lemma parseCRILog_guard log msg :
  len log < 4 ->
  parseCRILog log msg
  = Abort (AssertionFailure "failed to parse CRI log: %v" "invalid CRI log").
Proof.
  intros H. unfold parseCRILog.
  destruct (Z.ltb_spec (len log) 4); [reflexivity | lia].
Qed.

Lemma parseCRILog_unfold log msg :
  4 <= len log ->
  parseCRILog log msg =
    (first <- index (SplitN log " " 4) 0 ;;
     let r := time_Parse RFC3339Nano first in
     ExpectNoError (result_err r) "failed to parse timeStamp: %v" ;;;
     stream <- index (SplitN log " " 4) 1 ;;
     let msg := match r with
                | inl timeStamp => set_timestamp msg timeStamp
                | inr _ => msg
                end in
     let msg := set_stream msg stream in
     content <- index (SplitN log " " 4) 3 ;;
     let msg := set_log msg (content ++ LF) in
     Ok msg).
Proof.
  intros H. unfold parseCRILog.
  destruct (Z.ltb_spec (len log) 4); [lia | reflexivity].
Qed.

(** A line of four segments whose first is a timestamp decodes. *)
Lemma parseCRILog_four log msg ts st tag content t :
  4 <= len log ->
  SplitN log " " 4 = [ts; st; tag; content] ->
  time_Parse RFC3339Nano ts = inl t ->
  parseCRILog log msg = Ok (mkLogMessage t st (content ++ LF)).
Proof.
  intros Hlen Hsplit Ht. rewrite parseCRILog_unfold by assumption.
  rewrite Hsplit. cbn [index Z.ltb Z.compare Z.to_nat nth_error bind].
  change (Pos.to_nat 1) with 1%nat. change (Pos.to_nat 3) with 3%nat.
  cbn [nth_error bind]. rewrite Ht. reflexivity.
Qed.

(** A first segment that is no timestamp stops the call with a failed
    assertion. *)
Lemma parseCRILog_timestamp log msg first rest e :
  4 <= len log ->
  SplitN log " " 4 = first :: rest ->
  time_Parse RFC3339Nano first = inr e ->
  parseCRILog log msg
  = Abort (AssertionFailure "failed to parse timeStamp: %v" e).
Proof.
  intros Hlen Hsplit Ht. rewrite parseCRILog_unfold by assumption.
  rewrite Hsplit. cbn [index Z.ltb Z.compare Z.to_nat nth_error bind].
  rewrite Ht. reflexivity.
Qed.

(** With a timestamp in front and fewer than four segments, the call
    runs into an index outside the slice. *)
Lemma parseCRILog_few_segments log msg first rest t :
  4 <= len log ->
  SplitN log " " 4 = first :: rest ->
  (length rest < 3)%nat ->
  time_Parse RFC3339Nano first = inl t ->
  exists i, parseCRILog log msg
            = Abort (IndexOutOfRange i (Z.of_nat (S (length rest)))).
Proof.
  intros Hlen Hsplit Hrest Ht. rewrite parseCRILog_unfold by assumption.
  rewrite Hsplit. cbn [index Z.ltb Z.compare Z.to_nat nth_error bind].
  rewrite Ht. cbn [result_err ExpectNoError bind].
  destruct rest as [|st rest].
  - exists 1. reflexivity.
  - destruct rest as [|tag rest]; [exists 3; reflexivity|].
    destruct rest as [|content rest]; [exists 3; reflexivity|].
    cbn in Hrest. lia.
Qed.

Lemma SplitN_4_length log :
  (1 <= length (SplitN log " " 4) <= 4)%nat.
Proof. unfold SplitN. cbn. apply genSplit_loop_length. Qed.

(** What a successful [parseCRILog] has seen and stored. *)
Lemma parseCRILog_Ok_inv log0 msg m :
  parseCRILog log0 msg = Ok m ->
  exists ts tag content,
    4 <= len log0 /\
    SplitN log0 " " 4 = [ts; stream m; tag; content] /\
    time_Parse RFC3339Nano ts = inl (timestamp m) /\
    log m = content ++ LF.
Proof.
  intros H.
  destruct (Z.ltb_spec (len log0) 4) as [Hlt|Hge].
  { rewrite parseCRILog_guard in H by assumption. discriminate. }
  pose proof (SplitN_4_length log0) as Hn.
  destruct (SplitN log0 " " 4) as [|ts rest] eqn:Hsplit; [cbn in Hn; lia|].
  destruct (time_Parse RFC3339Nano ts) as [t|e] eqn:Ht.
  2:{ rewrite (parseCRILog_timestamp _ _ _ _ _ Hge Hsplit Ht) in H.
      discriminate. }
  destruct rest as [|st [|tag [|content [|extra rest]]]];
    try (destruct (parseCRILog_few_segments log0 msg ts _ t Hge Hsplit
                     ltac:(cbn; lia) Ht) as [i Hi];
         rewrite Hi in H; discriminate).
  - rewrite (parseCRILog_four _ msg _ _ _ _ _ Hge Hsplit Ht) in H.
    injection H as <-. exists ts, tag, content. cbn. auto.
  - cbn in Hn. lia.
Qed.

Lemma parseDockerJSONLog_ok line msg l :
  json_Unmarshal line = inl l ->
  parseDockerJSONLog line msg
  = Ok (mkLogMessage (Created l) (Stream l) (Log l)).
Proof. intros H. unfold parseDockerJSONLog. rewrite H. reflexivity. Qed.

Lemma parseDockerJSONLog_err line msg e :
  json_Unmarshal line = inr e ->
  parseDockerJSONLog line msg
  = Abort (AssertionFailure "failed with %v to unmarshal log %q" e).
Proof. intros H. unfold parseDockerJSONLog. rewrite H. reflexivity. Qed.

Lemma decodeLine_detect line msg :
  decodeLine line msg =
    match detect line with
    | EncodingA => parseDockerJSONLog line msg
    | EncodingB => parseCRILog line msg
    end.
Proof. unfold decodeLine, detect. now destruct (HasPrefix line "{"). Qed.

(** Both decoders assign all three fields: what the shared record held
    before the call does not show in the result. *)
Lemma parseDockerJSONLog_fresh line msg msg' :
  parseDockerJSONLog line msg = parseDockerJSONLog line msg'.
Proof.
  unfold parseDockerJSONLog. destruct (json_Unmarshal line); reflexivity.
Qed.

Lemma parseCRILog_fresh line msg msg' :
  parseCRILog line msg = parseCRILog line msg'.
Proof.
  unfold parseCRILog.
  destruct (len line <? 4); [reflexivity|]. cbn [bind].
  destruct (index (SplitN line " " 4) 0) as [first|]; [|reflexivity].
  cbn [bind].
  destruct (time_Parse RFC3339Nano first); [|reflexivity].
  cbn [result_err ExpectNoError bind].
  destruct (index (SplitN line " " 4) 1); [|reflexivity]. cbn [bind].
  destruct (index (SplitN line " " 4) 3); reflexivity.
Qed.

Lemma decodeLine_fresh line msg msg' :
  decodeLine line msg = decodeLine line msg'.
Proof.
  unfold decodeLine. destruct (HasPrefix line "{").
  - apply parseDockerJSONLog_fresh.
  - apply parseCRILog_fresh.
Qed.

End DecoderFacts.

(** ** The line scanner *)

Section ScannerFacts.
Import Go Bufio.

Lemma take_nil n : take n "" = "".
Proof. reflexivity. Qed.

Lemma take_app_le n a b :
  (String.length a <= n)%nat ->
  take n (a ++ b) = a ++ take (n - String.length a) b.
Proof.
  revert n. induction a as [|c a IH]; intros n H; cbn [append String.length].
  - now rewrite Nat.sub_0_r.
  - destruct n as [|n]; [cbn in H; lia|]. cbn in H.
    cbn [take Nat.sub]. rewrite IH by lia. reflexivity.
Qed.

Lemma take_app_ge n a b :
  (n <= String.length a)%nat -> take n (a ++ b) = take n a.
Proof.
  revert n. induction a as [|c a IH]; intros n H; cbn in H.
  - assert (n = 0%nat) by lia. subst. cbn. apply take_0.
  - destruct n as [|n]; [reflexivity|]. cbn. rewrite IH by lia. reflexivity.
Qed.

Lemma length_drop n s :
  String.length (drop n s) = (String.length s - n)%nat.
Proof.
  revert n. induction s as [|c s IH]; intros n; [reflexivity|].
  destruct n as [|n]; cbn; auto.
Qed.

Lemma slice_from_sep1 a c b : slice_from (a ++ String c b) (len a + 1) = b.
Proof. exact (slice_from_sep a c b). Qed.

(** The buffer window of a file that starts with a line that fits. *)
Lemma window_line l rest :
  len l < MaxScanTokenSize ->
  exists rest', slice_to (l ++ LF ++ rest) MaxScanTokenSize
                = l ++ String "010" rest'.
Proof.
  intros H. unfold slice_to, len in *.
  rewrite take_app_le by lia.
  destruct (Z.to_nat MaxScanTokenSize - String.length l)%nat as [|k] eqn:E;
    [lia|].
  exists (take k rest). reflexivity.
Qed.

(** [Scan] on a file that starts with a terminated line. *)
Lemma Scan_line l rest txt :
  scannable l ->
  Scan (mkScanner (l ++ LF ++ rest) txt None)
  = (true, mkScanner rest (dropCR l) None).
Proof.
  intros [Hnl Hlen]. unfold Scan. cbn [err src text].
  destruct (window_line l rest Hlen) as [rest' ->].
  unfold ScanLines.
  assert (Hw : (len (l ++ String "010" rest') =? 0) = false).
  { apply Z.eqb_neq. rewrite len_app, len_String.
    pose proof (len_nonneg l). pose proof (len_nonneg rest'). lia. }
  rewrite Hw, andb_false_r.
  unfold LF. rewrite (Index_first "010" l rest' Hnl).
  pose proof (len_nonneg l) as Hl.
  destruct (Z.leb_spec 0 (len l)); [|lia].
  rewrite slice_to_len.
  change (l ++ String "010" "" ++ rest) with (l ++ String "010" rest).
  rewrite slice_from_sep1. reflexivity.
Qed.

(** [Scan] on the last line, when no newline ends it. *)
Lemma Scan_last l txt :
  scannable l -> l <> "" ->
  Scan (mkScanner l txt None) = (true, mkScanner "" (dropCR l) None).
Proof.
  intros [Hnl Hlen] Hne. unfold Scan. cbn [err src text].
  unfold slice_to. rewrite take_all by (unfold len in Hlen; lia).
  destruct (Z.ltb_spec (len l) MaxScanTokenSize); [|lia].
  unfold ScanLines.
  assert (Hw : (len l =? 0) = false).
  { apply Z.eqb_neq. destruct l; [congruence|]. rewrite len_String.
    pose proof (len_nonneg l). lia. }
  rewrite Hw. cbn [andb]. unfold LF. rewrite (Index_absent "010" l Hnl).
  cbn [Z.leb Z.compare].
  unfold slice_from, len. rewrite Nat2Z.id.
  replace l with (l ++ "") at 2 by apply app_empty_r.
  rewrite drop_app. reflexivity.
Qed.

(** [Scan] at the end of the file. *)
Lemma Scan_eof txt :
  Scan (mkScanner "" txt None) = (false, mkScanner "" txt None).
Proof.
  unfold Scan. cbn [err src text]. unfold slice_to. rewrite take_nil.
  reflexivity.
Qed.

(** [Scan] on a file that starts with a line too long for the buffer. *)
Lemma Scan_too_long l rest txt :
  hasByte "010" l = false -> MaxScanTokenSize <= len l ->
  Scan (mkScanner (l ++ rest) txt None)
  = (false, mkScanner (l ++ rest) txt (Some ErrTooLong)).
Proof.
  intros Hnl Hlen. unfold Scan. cbn [err src text].
  unfold slice_to.
  rewrite take_app_ge by (unfold len in Hlen; lia).
  pose proof (len_nonneg rest) as Hr.
  destruct (Z.ltb_spec (len (l ++ rest)) MaxScanTokenSize) as [H|H];
    [rewrite len_app in H; lia|].
  unfold ScanLines. cbn [andb]. unfold LF.
  rewrite (Index_absent "010" _ (hasByte_take _ _ _ Hnl)).
  reflexivity.
Qed.

(** A successful [Scan] consumes input and does not depend on the
    previous token. *)
Lemma Scan_true s txt sc :
  Scan (mkScanner s txt None) = (true, sc) ->
  (String.length (src sc) < String.length s)%nat /\
  err sc = None /\
  forall txt', Scan (mkScanner s txt' None) = (true, sc).
Proof.
  unfold Scan, slice_to. cbn [err src text].
  generalize (Z.to_nat MaxScanTokenSize) as n.
  generalize (len s <? MaxScanTokenSize) as atEOF. intros atEOF n.
  destruct (ScanLines (take n s) atEOF) as [advance [token|]] eqn:E.
  2:{ destruct atEOF; discriminate. }
  intros H. injection H as <-. cbn [src err]. repeat split.
  unfold ScanLines in E.
  assert (Hs : take n s <> "" -> s <> "").
  { intros Hw ->. apply Hw. reflexivity. }
  assert (Hadv : 1 <= advance /\ s <> "").
  { destruct (atEOF && (len (take n s) =? 0)) eqn:C; [discriminate|].
    destruct (Z.leb_spec 0 (Index (take n s) LF)) as [Hi|Hi].
    - injection E as <- _. split; [lia|]. apply Hs. intros Hw.
      rewrite Hw in Hi. cbn in Hi. lia.
    - destruct atEOF; [|discriminate].
      injection E as <- _. cbn [andb] in C. apply Z.eqb_neq in C.
      pose proof (len_nonneg (take n s)). split; [lia|].
      apply Hs. intros Hw. rewrite Hw in C. now apply C. }
  destruct Hadv as [Hadv Hne].
  unfold slice_from. rewrite length_drop.
  destruct s; [congruence|]. cbn [String.length]. lia.
Qed.

(** An unsuccessful [Scan] leaves the same error whatever the previous
    token was. *)
Lemma Scan_false s txt sc :
  Scan (mkScanner s txt None) = (false, sc) ->
  forall txt', exists sc',
    Scan (mkScanner s txt' None) = (false, sc') /\ err sc' = err sc.
Proof.
  unfold Scan. cbn [err src text].
  destruct (ScanLines (slice_to s MaxScanTokenSize)
              (len s <? MaxScanTokenSize)) as [advance [token|]];
    [discriminate|].
  destruct (len s <? MaxScanTokenSize); intros H; injection H as <-;
    intros txt'; eexists; split; reflexivity.
Qed.

End ScannerFacts.

(** ** Physical lines *)

Section LineFacts.

Lemma physicalLines_from_LF cur rest :
  physicalLines_from cur (Bufio.LF ++ rest)
  = cur :: physicalLines_from "" rest.
Proof. reflexivity. Qed.

Lemma physicalLines_from_app cur l rest :
  hasByte "010" l = false ->
  physicalLines_from cur (l ++ rest) = physicalLines_from (cur ++ l) rest.
Proof.
  revert cur. induction l as [|c l IH]; intros cur H.
  - cbn [append]. now rewrite app_empty_r.
  - cbn in H. apply orb_false_iff in H as [H1 H2].
    cbn [append physicalLines_from]. rewrite H1, (IH _ H2).
    rewrite app_assoc_s. reflexivity.
Qed.

(** The physical lines of a file written line by line are the lines
    written, a last unterminated one included. *)
Lemma physicalLines_unlines ls last :
  Forall (fun l => hasByte "010" l = false) ls ->
  hasByte "010" last = false ->
  physicalLines (unlines ls ++ last) = (ls ++ lastLine last)%list.
Proof.
  intros Hls Hlast. unfold physicalLines.
  induction Hls as [|l ls Hl Hls IH].
  - cbn [unlines append app].
    replace last with (last ++ "") at 1 by apply app_empty_r.
    rewrite physicalLines_from_app by assumption. reflexivity.
  - cbn [unlines]. rewrite !app_assoc_s.
    rewrite physicalLines_from_app by assumption.
    rewrite physicalLines_from_LF, IH. reflexivity.
Qed.

(** Every file is a sequence of terminated newline-free lines followed
    by an unterminated newline-free rest, and these are its physical
    lines. *)
Lemma physicalLines_from_decompose content : forall cur,
  hasByte "010" cur = false ->
  exists ls last,
    cur ++ content = unlines ls ++ last /\
    Forall (fun l => hasByte "010" l = false) ls /\
    hasByte "010" last = false /\
    physicalLines_from cur content = (ls ++ lastLine last)%list.
Proof.
  induction content as [|c rest IH]; intros cur Hcur.
  - exists [], cur. rewrite app_empty_r. cbn. auto.
  - cbn [physicalLines_from]. destruct (Ascii.eqb_spec c "010") as [->|Hc].
    + destruct (IH "" eq_refl) as (ls & last & E & Hls & Hlast & P).
      exists (cur :: ls), last. cbn [unlines append] in *.
      rewrite P. repeat split; auto.
      rewrite !app_assoc_s. cbn [append]. now rewrite <- E.
    + destruct (IH (cur ++ String c "")) as (ls & last & E & Hls & Hlast & P).
      { rewrite hasByte_app, Hcur. cbn.
        destruct (Ascii.eqb_spec c "010"); [contradiction|reflexivity]. }
      exists ls, last. rewrite app_assoc_s in E. cbn [append] in E. auto.
Qed.

Lemma physicalLines_decompose content :
  exists ls last,
    content = unlines ls ++ last /\
    Forall (fun l => hasByte "010" l = false) ls /\
    hasByte "010" last = false /\
    physicalLines content = (ls ++ lastLine last)%list.
Proof. exact (physicalLines_from_decompose content "" eq_refl). Qed.

Lemma physicalLines_newline_free content :
  Forall (fun l => hasByte "010" l = false) (physicalLines content).
Proof.
  destruct (physicalLines_decompose content) as (ls & last & _ & Hls & Hl & ->).
  apply Forall_app. split; [assumption|].
  destruct last; cbn; auto.
Qed.

Lemma hasByte_dropCR c l : hasByte c l = false -> hasByte c (Bufio.dropCR l) = false.
Proof.
  induction l as [|d l IH]; intros H; [reflexivity|].
  cbn in H. apply orb_false_iff in H as [H1 H2].
  cbn [Bufio.dropCR]. destruct l as [|e l].
  - destruct (Ascii.eqb d Bufio.CR); cbn; [reflexivity|]. now rewrite H1.
  - cbn [hasByte]. rewrite H1. exact (IH H2).
Qed.

Lemma scannable_dec l : {scannable l} + {~ scannable l}.
Proof.
  unfold scannable.
  destruct (bool_dec (hasByte "010" l) false) as [H|H];
    destruct (Z_lt_dec (Go.len l) Bufio.MaxScanTokenSize) as [L|L];
    try (left; split; assumption); right; intros [? ?]; contradiction.
Qed.

End LineFacts.

(** ** The reading loop *)

Section ReaderFacts.
Context {Time : Type} {RT : GoRuntime Time}.
Import Go Bufio.

Local Abbreviation run content acc :=
  (parseLogLine_loop (String.length content) (NewScanner content)
     zeroLogMessage acc).

Lemma bind_Ok_r {A : Type} (m : outcome A) : (x <- m ;; Ok x) = m.
Proof. now destruct m. Qed.

Lemma parseLogLine_loop_eq fuel scanner (msg : logMessage Time) acc :
  parseLogLine_loop fuel scanner msg acc =
    match Scan scanner with
    | (true, scanner') =>
        match fuel with
        | O => Ok acc
        | S fuel' =>
            m <- decodeLine (Text scanner') msg ;;
            parseLogLine_loop fuel' scanner' m (acc ++ [m])%list
        end
    | (false, scanner') =>
        ExpectNoError (Err scanner') "failed to read log by row: %v" ;;;
        Ok acc
    end.
Proof. destruct fuel; reflexivity. Qed.

(** Fuel beyond the length of the unread content, the previous token
    and the previous content of the shared record make no
    difference. *)
Lemma parseLogLine_loop_canon fuel1 : forall fuel2 s txt1 txt2
    (msg1 msg2 : logMessage Time) acc,
  (String.length s <= fuel1)%nat -> (String.length s <= fuel2)%nat ->
  parseLogLine_loop fuel1 (mkScanner s txt1 None) msg1 acc
  = parseLogLine_loop fuel2 (mkScanner s txt2 None) msg2 acc.
Proof.
  induction fuel1 as [|fuel1 IH]; intros fuel2 s txt1 txt2 msg1 msg2 acc H1 H2.
  - destruct s; [|cbn in H1; lia].
    rewrite !parseLogLine_loop_eq, !Scan_eof. reflexivity.
  - rewrite !parseLogLine_loop_eq.
    destruct (Scan (mkScanner s txt1 None)) as [[|] sc] eqn:E.
    + destruct (Scan_true _ _ _ E) as (Hlt & Herr & Hsame).
      rewrite (Hsame txt2).
      destruct fuel2 as [|fuel2]; [lia|].
      rewrite (decodeLine_fresh (Text sc) msg1 msg2).
      destruct (decodeLine (Text sc) msg2) as [m|e]; [|reflexivity].
      cbn [bind]. destruct sc as [s' txt' err']. cbn in Herr, Hlt. subst err'.
      apply IH; lia.
    + destruct (Scan_false _ _ _ E txt2) as (sc' & -> & Herr).
      unfold Err. rewrite Herr. reflexivity.
Qed.

Lemma run_nil (acc : list (logMessage Time)) : run "" acc = Ok acc.
Proof. reflexivity. Qed.

Lemma run_line l rest (acc : list (logMessage Time)) :
  scannable l ->
  run (l ++ LF ++ rest) acc
  = (m <- decodeLine (dropCR l) zeroLogMessage ;; run rest (acc ++ [m])%list).
Proof.
  intros Hl. rewrite parseLogLine_loop_eq. unfold NewScanner.
  rewrite (Scan_line l rest "" Hl).
  rewrite !length_app. cbn [String.length LF]. rewrite Nat.add_succ_r.
  cbn [Nat.add Text text].
  destruct (decodeLine (dropCR l) zeroLogMessage) as [m|e]; [|reflexivity].
  cbn [bind]. apply parseLogLine_loop_canon; lia.
Qed.

Lemma run_last l (acc : list (logMessage Time)) :
  scannable l -> l <> "" ->
  run l acc = (m <- decodeLine (dropCR l) zeroLogMessage ;; Ok (acc ++ [m])%list).
Proof.
  intros Hl Hne. rewrite parseLogLine_loop_eq. unfold NewScanner.
  rewrite (Scan_last l "" Hl Hne).
  destruct l as [|c l]; [congruence|]. cbn [String.length Text text].
  destruct (decodeLine (dropCR (String c l)) zeroLogMessage) as [m|e];
    [|reflexivity].
  cbn [bind]. rewrite parseLogLine_loop_eq, Scan_eof. reflexivity.
Qed.

Lemma run_too_long l rest (acc : list (logMessage Time)) :
  hasByte "010" l = false -> MaxScanTokenSize <= len l ->
  run (l ++ rest) acc
  = Abort (AssertionFailure "failed to read log by row: %v" ErrTooLong).
Proof.
  intros Hnl Hlen. rewrite parseLogLine_loop_eq. unfold NewScanner.
  rewrite (Scan_too_long l rest "" Hnl Hlen). reflexivity.
Qed.

(** Reading a file whose first lines fit the scanner: they are decoded
    one by one, each with a fresh record, and reading goes on with
    what follows them. *)
Lemma run_unlines ls : forall rest (acc : list (logMessage Time)),
  Forall scannable ls ->
  run (unlines ls ++ rest) acc
  = (ms <- decodeEach (map dropCR ls) ;; run rest (acc ++ ms)%list).
Proof.
  induction ls as [|l ls IH]; intros rest acc Hls.
  - cbn [unlines append map decodeEach bind]. now rewrite app_nil_r.
  - inversion Hls as [|? ? Hl Hls']; subst.
    cbn [unlines map decodeEach]. rewrite !app_assoc_s.
    rewrite (run_line l _ acc Hl).
    destruct (decodeLine (dropCR l) zeroLogMessage) as [m|e]; [|reflexivity].
    cbn [bind]. rewrite (IH rest (acc ++ [m])%list Hls').
    destruct (decodeEach (map dropCR ls)) as [ms|e]; [|reflexivity].
    cbn [bind]. now rewrite <- app_assoc.
Qed.

Lemma decodeEach_app (ls1 ls2 : list string) :
  decodeEach (ls1 ++ ls2)%list
  = (ms1 <- decodeEach ls1 ;; ms2 <- decodeEach ls2 ;; Ok (ms1 ++ ms2)%list).
Proof.
  induction ls1 as [|l ls1 IH]; cbn [app decodeEach bind].
  - now rewrite bind_Ok_r.
  - destruct (decodeLine l zeroLogMessage) as [m|e]; [|reflexivity].
    cbn [bind]. rewrite IH.
    destruct (decodeEach ls1) as [ms1|e]; [|reflexivity]. cbn [bind].
    destruct (decodeEach ls2) as [ms2|e]; reflexivity.
Qed.

(** A file all of whose lines fit the scanner. *)
Lemma run_scannable ls last :
  Forall scannable (ls ++ lastLine last)%list ->
  run (unlines ls ++ last) [] = decodeEach (map dropCR (ls ++ lastLine last)%list).
Proof.
  intros H. apply Forall_app in H as [Hls Hlast].
  rewrite (run_unlines ls last [] Hls), map_app, decodeEach_app.
  destruct (decodeEach (map dropCR ls)) as [ms|e]; [|reflexivity].
  cbn [bind app]. destruct last as [|c last].
  - cbn [lastLine map decodeEach bind]. now rewrite run_nil, app_nil_r.
  - cbn [lastLine] in *. inversion Hlast as [|? ? Hl _]; subst.
    rewrite (run_last _ ms Hl) by discriminate.
    cbn [map decodeEach].
    destruct (decodeLine (dropCR (String c last)) zeroLogMessage);
      reflexivity.
Qed.

(** A file with a line that does not fit the scanner is never read to
    the end. *)
Lemma run_unscannable ls : forall last (acc : list (logMessage Time)),
  Forall (fun l => hasByte "010" l = false) ls ->
  hasByte "010" last = false ->
  ~ Forall scannable (ls ++ lastLine last)%list ->
  exists e, run (unlines ls ++ last) acc = Abort e.
Proof.
  induction ls as [|l ls IH]; intros last acc Hls Hlast Hno.
  - cbn [unlines append app] in *.
    destruct (Z_lt_dec (len last) MaxScanTokenSize) as [L|L].
    + exfalso. apply Hno. destruct last; cbn; constructor; [|constructor].
      split; assumption.
    + eexists. rewrite <- (app_empty_r last).
      apply run_too_long; [assumption | lia].
  - inversion Hls as [|? ? Hl Hls']; subst.
    cbn [unlines]. rewrite !app_assoc_s.
    destruct (Z_lt_dec (len l) MaxScanTokenSize) as [L|L].
    + rewrite (run_line l _ acc (conj Hl L)).
      destruct (decodeLine (dropCR l) zeroLogMessage) as [m|e];
        [|eexists; reflexivity].
      cbn [bind]. apply IH; auto.
      intros Hall. apply Hno. cbn [app]. constructor; [split|]; assumption.
    + eexists. apply run_too_long; [assumption | lia].
Qed.

(** [parseLogLine] on a file that can be opened. *)
Lemma parseLogLine_open fs podConfig logPath content :
  fs (filepath_Join (LogDirectory podConfig) logPath) = inl content ->
  parseLogLine fs podConfig logPath = run content [].
Proof. intros H. unfold parseLogLine. rewrite H. reflexivity. Qed.

Lemma parseLogLine_no_file fs podConfig logPath e :
  fs (filepath_Join (LogDirectory podConfig) logPath) = inr e ->
  parseLogLine fs podConfig logPath
  = Abort (AssertionFailure "failed to open log file: %v" e).
Proof. intros H. unfold parseLogLine. rewrite H. reflexivity. Qed.

(** What a successful read has gone through: every physical line fits
    the scanner, and the records are those of the lines, decoded one
    by one. *)
Lemma parseLogLine_Ok_inv fs podConfig logPath msgs :
  parseLogLine fs podConfig logPath = Ok msgs ->
  exists content,
    fs (filepath_Join (LogDirectory podConfig) logPath) = inl content /\
    Forall scannable (physicalLines content) /\
    decodeEach (map dropCR (physicalLines content)) = Ok msgs.
Proof.
  intros H.
  destruct (fs (filepath_Join (LogDirectory podConfig) logPath))
    as [content|e] eqn:Hf.
  2:{ rewrite (parseLogLine_no_file _ _ _ _ Hf) in H. discriminate. }
  exists content. split; [reflexivity|].
  rewrite (parseLogLine_open _ _ _ _ Hf) in H.
  destruct (physicalLines_decompose content)
    as (ls & last & -> & Hls & Hlast & ->).
  destruct (Forall_dec scannable scannable_dec (ls ++ lastLine last)%list)
    as [Hall|Hno].
  - split; [assumption|]. now rewrite <- run_scannable.
  - destruct (run_unscannable ls last [] Hls Hlast Hno) as [e He].
    rewrite He in H. discriminate.
Qed.

(** The records of [decodeEach] match the lines one to one. *)
Lemma decodeEach_Forall2 lines : forall msgs : list (logMessage Time),
  decodeEach lines = Ok msgs <->
  Forall2 (fun line m => decodeLine line zeroLogMessage = Ok m) lines msgs.
Proof.
  induction lines as [|l lines IH]; intros msgs; cbn [decodeEach].
  - split; intros H.
    + injection H as <-. constructor.
    + inversion H. reflexivity.
  - split; intros H.
    + destruct (decodeLine l zeroLogMessage) as [m|e] eqn:E; [|discriminate].
      cbn [bind] in H.
      destruct (decodeEach lines) as [ms|e] eqn:E'; [|discriminate].
      injection H as <-. constructor; [assumption|]. now apply IH.
    + inversion H as [|? m ? ms Hm Hms]; subst.
      rewrite Hm. cbn [bind]. apply IH in Hms. rewrite Hms. reflexivity.
Qed.

End ReaderFacts.

(** ** The scan of [verifyLogContents] *)

Section VerifierFacts.
Context {Time : Type}.

Lemma verifyLogContents_scan_cons (m : logMessage Time) msgs p s :
  verifyLogContents_scan (m :: msgs) p s false
  = (String.eqb (log m) p && String.eqb (stream m) s)
    || verifyLogContents_scan msgs p s false.
Proof.
  cbn. now destruct (String.eqb (log m) p && String.eqb (stream m) s).
Qed.

End VerifierFacts.

(** ** Records and lines, one to one *)

Section SequenceFacts.
Context {Time : Type} {RT : GoRuntime Time}.
Import Go Bufio.

Lemma physicalLines_unlines_rest ls rest :
  Forall (fun l => hasByte "010" l = false) ls ->
  physicalLines (unlines ls ++ rest) = (ls ++ physicalLines rest)%list.
Proof.
  intros Hls. unfold physicalLines.
  induction Hls as [|l ls Hl Hls IH]; [reflexivity|].
  cbn [unlines]. rewrite !app_assoc_s.
  rewrite physicalLines_from_app by assumption.
  rewrite physicalLines_from_LF, IH. reflexivity.
Qed.

Lemma decodeEach_length lines (msgs : list (logMessage Time)) :
  decodeEach lines = Ok msgs -> length msgs = length lines.
Proof.
  intros H. apply decodeEach_Forall2 in H.
  symmetry. exact (Forall2_length H).
Qed.

Lemma decodeEach_nth lines (msgs : list (logMessage Time)) i line :
  decodeEach lines = Ok msgs ->
  nth_error lines i = Some line ->
  exists m, nth_error msgs i = Some m /\ decodeLine line zeroLogMessage = Ok m.
Proof.
  intros H. apply decodeEach_Forall2 in H. revert i.
  induction H as [|l m lines msgs Hm _ IH]; intros i Hi.
  - destruct i; discriminate.
  - destruct i as [|i]; cbn in *.
    + injection Hi as <-. exists m. auto.
    + exact (IH i Hi).
Qed.

Lemma decodeEach_app_inv lines1 lines2 (msgs : list (logMessage Time)) :
  decodeEach (lines1 ++ lines2)%list = Ok msgs ->
  exists ms1 ms2,
    decodeEach lines1 = Ok ms1 /\ decodeEach lines2 = Ok ms2 /\
    msgs = (ms1 ++ ms2)%list.
Proof.
  rewrite decodeEach_app.
  destruct (decodeEach lines1) as [ms1|e]; [|discriminate].
  destruct (decodeEach lines2) as [ms2|e]; [|discriminate].
  cbn [bind]. intros H. injection H as <-. now exists ms1, ms2.
Qed.

Lemma decodeEach_map_Forall2 (f : string -> string) lines :
  forall msgs : list (logMessage Time),
    decodeEach (map f lines) = Ok msgs <->
    Forall2 (fun line m => decodeLine (f line) zeroLogMessage = Ok m) lines msgs.
Proof.
  intros msgs. rewrite decodeEach_Forall2. revert msgs.
  induction lines as [|l lines IH]; intros msgs; cbn [map].
  - split; intros H; inversion H; constructor.
  - split; intros H; inversion H as [|? m ? ms Hm Hms]; subst;
      constructor; try assumption; now apply IH.
Qed.

Lemma firstn_length_app {A : Type} (l1 l2 : list A) n :
  n = length l1 -> firstn n (l1 ++ l2) = l1.
Proof.
  intros ->. rewrite firstn_app, Nat.sub_diag, firstn_all. cbn.
  apply app_nil_r.
Qed.

Lemma SplitN_4_hasByte c s :
  hasByte c s = false ->
  Forall (fun p => hasByte c p = false) (SplitN s " " 4).
Proof. intros H. unfold SplitN. cbn. now apply genSplit_loop_hasByte. Qed.

(** The payload of a CRI record is a newline-free content followed by
    the newline that [parseCRILog] appends. *)
Lemma parseCRILog_payload_newline line (msg m : logMessage Time) :
  hasByte "010" line = false ->
  parseCRILog line msg = Ok m ->
  exists payload, log m = payload ++ LF /\ hasByte "010" payload = false.
Proof.
  intros Hnl H.
  apply parseCRILog_Ok_inv in H as (ts & tag & content & _ & Hs & _ & Hlog).
  exists content. split; [assumption|].
  pose proof (SplitN_4_hasByte "010" line Hnl) as F. rewrite Hs in F.
  inversion F as [|? ? _ F1]; subst. inversion F1 as [|? ? _ F2]; subst.
  inversion F2 as [|? ? _ F3]; subst. inversion F3; subst. assumption.
Qed.

Lemma parseLogLine_scannable fs podConfig logPath content :
  fs (filepath_Join (LogDirectory podConfig) logPath) = inl content ->
  Forall scannable (physicalLines content) ->
  parseLogLine fs podConfig logPath
  = decodeEach (map dropCR (physicalLines content)).
Proof.
  intros Hf Hall. rewrite (parseLogLine_open _ _ _ _ Hf).
  destruct (physicalLines_decompose content)
    as (ls & last & -> & Hls & Hlast & E).
  rewrite E in *. now apply run_scannable.
Qed.

End SequenceFacts.

(** * The claims of the specification *)

(** C1 (the code departs from the claim).  A CRI line of three segments
    whose first segment is a timestamp is routed to [parseCRILog], passes
    its guard, which measures the line and not the segments, and stops
    with the run-time panic "index out of range [3] with length 3", which
    is not a [MalformedRecord]. *)
Theorem parseCRILog_three_segments_out_of_range :
  let line := "2016-10-06T00:17:09.669794202Z stdout F" in
  detect line = EncodingB /\
  Go.len line = 39 /\
  Go.SplitN line " " 4 = ["2016-10-06T00:17:09.669794202Z"; "stdout"; "F"] /\
  decodeLine (RT := Sample.runtime) line zeroLogMessage
  = Abort (IndexOutOfRange 3 3) /\
  classify (IndexOutOfRange 3 3) <> MalformedRecord.
Proof.
  cbv zeta. split; [reflexivity|]. split; [reflexivity|].
  split; [reflexivity|]. split; [vm_compute; reflexivity | discriminate].
Qed.

(** C2, as stated, fails: the line [" {"] has ['{'] as its first
    non-space character and is not taken for encoding A. *)
Lemma detect_leading_space_counterexample :
  ~ (detect " {" = EncodingA <-> firstNonSpace " {" = Some "{"%char).
Proof.
  intros [_ H]. specialize (H eq_refl). discriminate.
Qed.

(** C2, amended.  A line is taken for encoding A exactly when its first
    character is ['{'], no space being skipped; every other line, and so
    every line that starts with a space, is decoded as encoding B. *)
Theorem detect_first_character {Time : Type} {RT : GoRuntime Time}
    (line : string) (msg : logMessage Time) :
  (detect line = EncodingA <-> String.get 0 line = Some "{"%char) /\
  (detect line = EncodingB <-> String.get 0 line <> Some "{"%char) /\
  decodeLine line msg =
    match String.get 0 line with
    | Some "{"%char => parseDockerJSONLog line msg
    | _ => parseCRILog line msg
    end /\
  (forall rest, detect (" " ++ rest) = EncodingB
                /\ decodeLine (" " ++ rest) msg = parseCRILog (" " ++ rest) msg).
Proof.
  assert (E : forall l, Go.HasPrefix l "{" = true <-> String.get 0 l = Some "{"%char).
  { intros [|c l]; cbn; [split; discriminate|].
    rewrite andb_true_r. split.
    - intros H. apply Ascii.eqb_eq in H. now subst.
    - intros H. injection H as ->. reflexivity. }
  repeat split.
  - unfold detect. intros H. apply E. now destruct (Go.HasPrefix line "{").
  - unfold detect. intros H. apply E in H. now rewrite H.
  - unfold detect. intros H H'. apply E in H'. rewrite H' in H. discriminate.
  - unfold detect. intros H. destruct (Go.HasPrefix line "{") eqn:P;
      [|reflexivity]. apply E in P. contradiction.
  - unfold decodeLine. destruct (Go.HasPrefix line "{") eqn:P.
    + apply E in P. rewrite P. reflexivity.
    + destruct (String.get 0 line) as [c|] eqn:G; [|reflexivity].
      destruct (Ascii.eqb_spec c "{") as [->|Hc].
      * apply E in G. congruence.
      * destruct c as [[] [] [] [] [] [] [] []]; try reflexivity.
        now contradiction Hc.
Qed.

(** C3.  A line made of a timestamp, a stream, a one-character tag and
    a content, separated by single spaces, decodes to the content with
    one newline appended: the content is taken whole, spaces included,
    and the tag is not looked at.  The line of the specification's
    example decodes to stream stdout and payload "hello world\n". *)
Theorem parseCRILog_payload {Time : Type} {RT : GoRuntime Time} :
  (forall (ts st tag content : string) (t : Time) (msg : logMessage Time),
      hasByte " " ts = false -> hasByte " " st = false ->
      hasByte " " tag = false -> String.length tag = 1%nat ->
      time_Parse RFC3339Nano ts = inl t ->
      let line := ts ++ " " ++ st ++ " " ++ tag ++ " " ++ content in
      parseCRILog line msg = Ok (mkLogMessage t st (content ++ Bufio.LF)) /\
      (detect line = EncodingB ->
       decodeLine line msg = Ok (mkLogMessage t st (content ++ Bufio.LF)))) /\
  (forall (t : Time) (msg : logMessage Time),
      time_Parse RFC3339Nano "2016-10-06T00:17:09.669794202Z" = inl t ->
      decodeLine "2016-10-06T00:17:09.669794202Z stdout F hello world" msg
      = Ok (mkLogMessage t stdoutType ("hello world" ++ Bufio.LF))).
Proof.
  assert (G : forall (ts st tag content : string) (t : Time) msg,
      hasByte " " ts = false -> hasByte " " st = false ->
      hasByte " " tag = false -> String.length tag = 1%nat ->
      time_Parse RFC3339Nano ts = inl t ->
      parseCRILog (ts ++ " " ++ st ++ " " ++ tag ++ " " ++ content) msg
      = Ok (mkLogMessage t st (content ++ Bufio.LF))).
  { intros ts st tag content t msg Hts Hst Htag Hlen Ht.
    apply parseCRILog_four with (ts := ts) (tag := tag).
    - assert (Go.len tag = 1) by (unfold Go.len; now rewrite Hlen).
      rewrite !len_app. change (Go.len " ") with 1.
      pose proof (len_nonneg ts). pose proof (len_nonneg st).
      pose proof (len_nonneg content). lia.
    - now apply SplitN_four.
    - exact Ht. }
  split.
  - intros ts st tag content t msg Hts Hst Htag Hlen Ht line.
    split; [now apply G|].
    intros HB. rewrite decodeLine_detect, HB. now apply G.
  - intros t msg Ht.
    exact (G "2016-10-06T00:17:09.669794202Z" "stdout" "F" "hello world" t msg
             eq_refl eq_refl eq_refl eq_refl Ht).
Qed.

Lemma parseCRILog_payload_witness :
  parseCRILog (RT := Sample.runtime) Sample.criLine zeroLogMessage
  = Ok (mkLogMessage (Sample.mkTime 2016 10 6 0 17 9 669794202 0)
          "stdout" ("hello world" ++ Bufio.LF)) /\
  decodeLine (RT := Sample.runtime) Sample.criLine zeroLogMessage
  = Ok (mkLogMessage (Sample.mkTime 2016 10 6 0 17 9 669794202 0)
          "stdout" ("hello world" ++ Bufio.LF)).
Proof.
  split.
  - refine (proj1 (proj1 (parseCRILog_payload (RT := Sample.runtime))
                     "2016-10-06T00:17:09.669794202Z" "stdout" "F" "hello world"
                     (Sample.mkTime 2016 10 6 0 17 9 669794202 0)
                     zeroLogMessage _ _ _ _ _));
      vm_compute; reflexivity.
  - refine (proj2 (parseCRILog_payload (RT := Sample.runtime)) _ _ _).
    vm_compute. reflexivity.
Defined.

(** C4, as stated, fails: a record can carry a stream that is neither
    stdout nor stderr.  The line below decodes, and its record has
    stream ["foo"]. *)
Lemma stream_outside_enum_counterexample :
  let m := mkLogMessage (Sample.mkTime 2016 10 6 0 17 9 669794202 0)
             "foo" ("x" ++ Bufio.LF) in
  decodeLine "2016-10-06T00:17:09.669794202Z foo F x" zeroLogMessage = Ok m /\
  ~ (stream m = stdoutType \/ stream m = stderrType).
Proof.
  cbv zeta. split; [vm_compute; reflexivity|].
  intros [E|E]; discriminate E.
Qed.

(** C4, amended.  The stream of a decoded record is the stream token of
    the line as it stands, cast to [streamType]: the second segment of a
    CRI line, the stream member of a Docker JSON line.  It is stdout or
    stderr only when the token is; any other token is kept as given, and
    decoding does not fail because of it. *)
Theorem stream_is_raw_token {Time : Type} {RT : GoRuntime Time} :
  (forall (line : string) (msg m : logMessage Time),
      decodeLine line msg = Ok m ->
      match detect line with
      | EncodingA => exists l, json_Unmarshal line = inl l /\ stream m = Stream l
      | EncodingB => nth_error (Go.SplitN line " " 4) 1 = Some (stream m)
      end) /\
  (forall (ts st tag content : string) (t : Time) (msg : logMessage Time),
      hasByte " " ts = false -> hasByte " " st = false ->
      hasByte " " tag = false -> String.length tag = 1%nat ->
      time_Parse RFC3339Nano ts = inl t ->
      exists m,
        parseCRILog (ts ++ " " ++ st ++ " " ++ tag ++ " " ++ content) msg = Ok m
        /\ stream m = st) /\
  (forall (line : string) (l : JSONLog Time) (msg : logMessage Time),
      json_Unmarshal line = inl l ->
      exists m, parseDockerJSONLog line msg = Ok m /\ stream m = Stream l).
Proof.
  split; [|split].
  - intros line msg m H. rewrite decodeLine_detect in H.
    destruct (detect line).
    + unfold parseDockerJSONLog in H.
      destruct (json_Unmarshal line) as [l|e]; [|discriminate].
      injection H as <-. exists l. split; reflexivity.
    + apply parseCRILog_Ok_inv in H as (ts & tag & content & _ & -> & _).
      reflexivity.
  - intros ts st tag content t msg Hts Hst Htag Hlen Ht.
    eexists. split.
    + apply parseCRILog_four with (ts := ts) (tag := tag).
      * assert (Go.len tag = 1) by (unfold Go.len; now rewrite Hlen).
        rewrite !len_app. change (Go.len " ") with 1.
        pose proof (len_nonneg ts). pose proof (len_nonneg st).
        pose proof (len_nonneg content). lia.
      * now apply SplitN_four.
      * exact Ht.
    + reflexivity.
  - intros line l msg H. exists (mkLogMessage (Created l) (Stream l) (Log l)).
    split; [exact (parseDockerJSONLog_ok line msg l H) | reflexivity].
Qed.

Lemma stream_is_raw_token_witness :
  exists m : logMessage Sample.Time,
    parseCRILog "2016-10-06T00:17:09.669794202Z foo F x" zeroLogMessage = Ok m
    /\ stream m = "foo".
Proof.
  apply (proj1 (proj2 (stream_is_raw_token (RT := Sample.runtime)))
           "2016-10-06T00:17:09.669794202Z" "foo" "F" "x"
           (Sample.mkTime 2016 10 6 0 17 9 669794202 0) zeroLogMessage);
    vm_compute; reflexivity.
Defined.

(** C5.  A line taken for encoding A fails to decode exactly when
    [json.Unmarshal] cannot read it as a [JSONLog], the object with the
    members time, stream and log; the failure is then a
    [MalformedRecord].  A line that [json.Unmarshal] reads decodes. *)
Theorem parseDockerJSONLog_fails_iff {Time : Type} {RT : GoRuntime Time}
    (line : string) (msg : logMessage Time) :
  detect line = EncodingA ->
  ((exists e, decodeLine line msg = Abort e) <->
   (exists err, json_Unmarshal line = inr err)) /\
  (forall e, decodeLine line msg = Abort e -> classify e = MalformedRecord) /\
  ((exists m, decodeLine line msg = Ok m) <->
   (exists l, json_Unmarshal line = inl l)).
Proof.
  intros HA. rewrite decodeLine_detect, HA.
  destruct (json_Unmarshal line) as [l|err] eqn:E.
  - rewrite (parseDockerJSONLog_ok _ msg _ E). repeat split.
    + intros [e H]. discriminate.
    + intros [err H]. discriminate.
    + intros e H. discriminate.
    + intros _. now exists l.
    + intros _. eexists. reflexivity.
  - rewrite (parseDockerJSONLog_err _ msg _ E). repeat split.
    + intros _. now exists err.
    + intros _. eexists. reflexivity.
    + intros e H. injection H as <-. reflexivity.
    + intros [m H]. discriminate.
    + intros [l H]. discriminate.
Qed.

Lemma parseDockerJSONLog_fails_iff_witness :
  detect Sample.dockerLine = EncodingA /\
  exists m : logMessage Sample.Time,
    decodeLine Sample.dockerLine zeroLogMessage = Ok m.
Proof.
  assert (A : detect Sample.dockerLine = EncodingA) by reflexivity.
  split; [exact A|].
  apply (proj2 (proj2 (parseDockerJSONLog_fails_iff
                         Sample.dockerLine zeroLogMessage A))).
  eexists. vm_compute. reflexivity.
Defined.

(** C6.  When a line taken for encoding A is read by [json.Unmarshal],
    the record has the stream member as its stream, the log member,
    unchanged and with nothing appended, as its payload, and the time
    member as its timestamp. *)
Theorem parseDockerJSONLog_fields {Time : Type} {RT : GoRuntime Time}
    (line : string) (l : JSONLog Time) (msg : logMessage Time) :
  detect line = EncodingA ->
  json_Unmarshal line = inl l ->
  exists m,
    decodeLine line msg = Ok m /\
    parseDockerJSONLog line msg = Ok m /\
    stream m = Stream l /\ log m = Log l /\ timestamp m = Created l.
Proof.
  intros HA E. exists (mkLogMessage (Created l) (Stream l) (Log l)).
  rewrite decodeLine_detect, HA, (parseDockerJSONLog_ok _ msg _ E).
  repeat split.
Qed.

Lemma parseDockerJSONLog_fields_witness :
  exists m : logMessage Sample.Time,
    decodeLine Sample.dockerLine zeroLogMessage = Ok m /\
    parseDockerJSONLog Sample.dockerLine zeroLogMessage = Ok m /\
    stream m = "stdout" /\
    log m = "hello World" ++ Bufio.LF /\
    timestamp m = Sample.mkTime 2016 10 20 18 39 20 576064430 0.
Proof.
  apply (parseDockerJSONLog_fields (RT := Sample.runtime) Sample.dockerLine
           (mkJSONLog ("hello World" ++ Bufio.LF) "stdout"
              (Sample.mkTime 2016 10 20 18 39 20 576064430 0))
           zeroLogMessage).
  - reflexivity.
  - vm_compute. reflexivity.
Defined.

(** C7.  The scan of [verifyLogContents] finds a message exactly when
    some record of the sequence has that payload and that stream, both
    compared whole; [verifyLogContents] passes exactly when the file is
    read and the scan of its records finds the message.  On the
    one-record sequence of stream stdout and payload "hello\n", the
    query ("hello\n", stdout) is found and the query ("hello", stdout)
    is not. *)
Theorem containsMessage_iff {Time : Type} {RT : GoRuntime Time} :
  (forall (msgs : list (logMessage Time)) (payload : string) (s : streamType),
      containsMessage msgs payload s = true <->
      exists m, In m msgs /\ log m = payload /\ stream m = s) /\
  (forall fs podConfig logPath (payload : string) (s : streamType),
      verifyLogContents fs podConfig logPath payload s = Ok tt <->
      exists msgs : list (logMessage Time),
        parseLogLine fs podConfig logPath = Ok msgs /\
        containsMessage msgs payload s = true) /\
  (forall t : Time,
      containsMessage [mkLogMessage t stdoutType ("hello" ++ Bufio.LF)]
        ("hello" ++ Bufio.LF) stdoutType = true /\
      containsMessage [mkLogMessage t stdoutType ("hello" ++ Bufio.LF)]
        "hello" stdoutType = false).
Proof.
  split; [|split; [|intros t; split; reflexivity]].
  - intros msgs payload s. unfold containsMessage.
    induction msgs as [|m msgs IH].
    + cbn. split; [discriminate | intros (m & [] & _)].
    + rewrite verifyLogContents_scan_cons, orb_true_iff, andb_true_iff,
        !String.eqb_eq, IH.
      split.
      * intros [[H1 H2]|(m' & Hin & H1 & H2)].
        -- exists m. cbn. auto.
        -- exists m'. cbn. auto.
      * intros (m' & [<-|Hin] & H1 & H2); [left; auto|].
        right. exists m'. auto.
  - intros fs podConfig logPath payload s. unfold verifyLogContents.
    destruct (parseLogLine fs podConfig logPath) as [msgs|e]; cbn [bind].
    + destruct (containsMessage msgs payload s) eqn:C.
      * split; [intros _; now exists msgs | reflexivity].
      * split; [discriminate|]. intros (msgs' & E & C').
        injection E as <-. congruence.
    + split; [discriminate | intros (msgs' & E & _); discriminate].
Qed.

(** The end-to-end scenario of the specification, on the sample
    runtime: a file with one Docker JSON line of log "hello World\n" and
    stream stdout passes the check for stdout and fails it for stderr. *)
Example verifyLogContents_docker_log :
  verifyLogContents Sample.fs Sample.podConfig "docker.log"
    (defaultLog ++ Bufio.LF) stdoutType = Ok tt /\
  verifyLogContents Sample.fs Sample.podConfig "docker.log"
    (defaultLog ++ Bufio.LF) stderrType
  = Abort (ExpectationFailure
             "expected log %q (stream=%q) not found in logs %+v").
Proof. split; vm_compute; reflexivity. Qed.

(** C8.  [parseLogLine] returns a sequence exactly when the file opens,
    every physical line fits the scanner and every line decodes; the
    sequence then has one record per line, in the order of the lines:
    the record at position [i] is the decoding of line [i], whatever the
    shared record held before.  The sequence depends on the content of
    the file alone, so a later call on the same content builds the same
    sequence again; and the records of the first lines are the same
    whatever follows them in the file. *)
Theorem parseLogLine_file_order {Time : Type} {RT : GoRuntime Time}
    (fs : FileSystem) (podConfig : PodSandboxConfig) (logPath : string)
    (msgs : list (logMessage Time)) :
  (parseLogLine fs podConfig logPath = Ok msgs <->
   exists content,
     fs (filepath_Join (LogDirectory podConfig) logPath) = inl content /\
     Forall scannable (physicalLines content) /\
     Forall2 (fun line m => decodeLine (Bufio.dropCR line) zeroLogMessage = Ok m)
       (physicalLines content) msgs) /\
  (parseLogLine fs podConfig logPath = Ok msgs ->
   exists content,
     fs (filepath_Join (LogDirectory podConfig) logPath) = inl content /\
     length msgs = length (physicalLines content) /\
     (forall i line,
         nth_error (physicalLines content) i = Some line ->
         exists m, nth_error msgs i = Some m /\
                   forall msg, decodeLine (Bufio.dropCR line) msg = Ok m) /\
     (forall fs' podConfig' logPath',
         fs' (filepath_Join (LogDirectory podConfig') logPath') = inl content ->
         parseLogLine fs' podConfig' logPath' = Ok msgs) /\
     (forall ls rest rest' fs' podConfig' logPath' msgs',
         Forall (fun l => hasByte "010" l = false) ls ->
         content = unlines ls ++ rest ->
         fs' (filepath_Join (LogDirectory podConfig') logPath')
         = inl (unlines ls ++ rest') ->
         parseLogLine fs' podConfig' logPath' = Ok msgs' ->
         firstn (length ls) msgs' = firstn (length ls) msgs)).
Proof.
  split.
  { split.
    - intros H.
      destruct (parseLogLine_Ok_inv _ _ _ _ H) as (content & Hf & Hall & Hdec).
      exists content. split; [exact Hf|]. split; [exact Hall|].
      now apply decodeEach_map_Forall2.
    - intros (content & Hf & Hall & Hdec).
      rewrite (parseLogLine_scannable _ _ _ _ Hf Hall).
      now apply decodeEach_map_Forall2. }
  intros H.
  destruct (parseLogLine_Ok_inv _ _ _ _ H) as (content & Hf & Hall & Hdec).
  exists content. split; [exact Hf|]. split; [|split; [|split]].
  - rewrite (decodeEach_length _ _ Hdec). apply length_map.
  - intros i line Hi.
    destruct (decodeEach_nth _ _ i (Bufio.dropCR line) Hdec) as (m & Hm & Hd).
    { rewrite nth_error_map, Hi. reflexivity. }
    exists m. split; [exact Hm|]. intros msg.
    now rewrite (decodeLine_fresh _ msg zeroLogMessage).
  - intros fs' podConfig' logPath' Hf'.
    rewrite (parseLogLine_open _ _ _ _ Hf').
    now rewrite <- (parseLogLine_open _ _ _ _ Hf).
  - intros ls rest rest' fs' podConfig' logPath' msgs' Hls -> Hf' H'.
    destruct (parseLogLine_Ok_inv _ _ _ _ H') as (content' & Hf'' & _ & Hdec').
    rewrite Hf' in Hf''. injection Hf'' as <-.
    rewrite physicalLines_unlines_rest, map_app in Hdec, Hdec' by assumption.
    apply decodeEach_app_inv in Hdec as (ms1 & ms2 & E1 & _ & ->).
    apply decodeEach_app_inv in Hdec' as (ms1' & ms2' & E1' & _ & ->).
    rewrite E1 in E1'. injection E1' as <-.
    apply decodeEach_length in E1. rewrite length_map in E1.
    rewrite !firstn_length_app by auto. reflexivity.
Qed.

Lemma parseLogLine_file_order_witness :
  exists content,
    Sample.fs (filepath_Join (LogDirectory Sample.podConfig) "cri.log")
    = inl content /\
    length [mkLogMessage (Sample.mkTime 2016 10 6 0 17 9 669794202 0)
              "stdout" ("hello world" ++ Bufio.LF);
            mkLogMessage (Sample.mkTime 2016 10 6 0 17 10 113242941 0)
              "stderr" ("bye" ++ Bufio.LF)]
    = length (physicalLines content).
Proof.
  destruct (proj2 (parseLogLine_file_order (RT := Sample.runtime)
                     Sample.fs Sample.podConfig "cri.log"
                     [mkLogMessage (Sample.mkTime 2016 10 6 0 17 9 669794202 0)
                        "stdout" ("hello world" ++ Bufio.LF);
                      mkLogMessage (Sample.mkTime 2016 10 6 0 17 10 113242941 0)
                        "stderr" ("bye" ++ Bufio.LF)]))
    as (content & Hf & Hlen & _).
  - vm_compute. reflexivity.
  - exists content. split; assumption.
Defined.

(** C10.  A successful [parseLogLine] has one record for each physical
    line of the file.  The line handed to the decoder has lost its
    terminating newline and holds no newline; the payload of a CRI
    record is a newline-free content followed by the one newline that
    [parseCRILog] appends.  When every line fits the scanner, the result
    is the line-by-line decoding of the physical lines.  A last line
    that no newline ends is a physical line like the others, and an
    empty file gives the empty sequence. *)
Theorem parseLogLine_one_record_per_line {Time : Type} {RT : GoRuntime Time} :
  (forall fs podConfig logPath (msgs : list (logMessage Time)),
      parseLogLine fs podConfig logPath = Ok msgs ->
      exists content,
        fs (filepath_Join (LogDirectory podConfig) logPath) = inl content /\
        Forall2 (fun line m =>
                   hasByte "010" (Bufio.dropCR line) = false /\
                   decodeLine (Bufio.dropCR line) zeroLogMessage = Ok m /\
                   (detect (Bufio.dropCR line) = EncodingB ->
                    exists payload,
                      log m = payload ++ Bufio.LF /\
                      hasByte "010" payload = false))
          (physicalLines content) msgs) /\
  (forall fs podConfig logPath content,
      fs (filepath_Join (LogDirectory podConfig) logPath) = inl content ->
      Forall scannable (physicalLines content) ->
      parseLogLine fs podConfig logPath
      = decodeEach (map Bufio.dropCR (physicalLines content))) /\
  (forall ls last,
      Forall (fun l => hasByte "010" l = false) ls ->
      hasByte "010" last = false -> last <> "" ->
      physicalLines (unlines ls) = ls /\
      physicalLines (unlines ls ++ last) = (ls ++ [last])%list) /\
  (forall fs podConfig logPath,
      fs (filepath_Join (LogDirectory podConfig) logPath) = inl "" ->
      parseLogLine fs podConfig logPath = Ok []).
Proof.
  split; [|split; [|split]].
  - intros fs podConfig logPath msgs H.
    destruct (parseLogLine_Ok_inv _ _ _ _ H) as (content & Hf & _ & Hdec).
    exists content. split; [exact Hf|].
    apply decodeEach_Forall2 in Hdec.
    pose proof (physicalLines_newline_free content) as Hnl.
    clear H Hf. revert msgs Hdec Hnl.
    generalize (physicalLines content) as lines.
    induction lines as [|line lines IH]; intros msgs Hdec Hnl;
      cbn [map] in Hdec; inversion Hdec as [|? m ? ms Hm Hms]; subst;
      constructor; inversion Hnl as [|? ? Hline Hnl']; subst.
    + pose proof (hasByte_dropCR "010" line Hline) as Hd.
      split; [exact Hd|]. split; [exact Hm|].
      intros HB. rewrite decodeLine_detect, HB in Hm.
      exact (parseCRILog_payload_newline _ _ _ Hd Hm).
    + now apply IH.
  - intros fs podConfig logPath content. apply parseLogLine_scannable.
  - intros ls last Hls Hlast Hne. split.
    + rewrite <- (app_empty_r (unlines ls)).
      rewrite physicalLines_unlines by auto. cbn. apply app_nil_r.
    + rewrite physicalLines_unlines by auto.
      destruct last; [congruence | reflexivity].
  - intros fs podConfig logPath Hf.
    now rewrite (parseLogLine_open _ _ _ _ Hf).
Qed.

Lemma parseLogLine_one_record_per_line_witness :
  exists content,
    Sample.fs (filepath_Join (LogDirectory Sample.podConfig) "cri.log")
    = inl content /\
    length (physicalLines content) = 2%nat.
Proof.
  destruct (proj1 (parseLogLine_one_record_per_line (RT := Sample.runtime))
              Sample.fs Sample.podConfig "cri.log"
              [mkLogMessage (Sample.mkTime 2016 10 6 0 17 9 669794202 0)
                 "stdout" ("hello world" ++ Bufio.LF);
               mkLogMessage (Sample.mkTime 2016 10 6 0 17 10 113242941 0)
                 "stderr" ("bye" ++ Bufio.LF)])
    as (content & Hf & Hall).
  - vm_compute. reflexivity.
  - exists content. split; [exact Hf|].
    rewrite (Forall2_length Hall). reflexivity.
Defined.

(** * Further properties of the code *)

(** ** Segments of a line *)

Section SegmentFacts.
Import Go.

Lemma hasByte_split c s :
  hasByte c s = true ->
  exists a b, s = a ++ String c b /\ hasByte c a = false.
Proof.
  induction s as [|d s IH]; intros H; [discriminate|].
  cbn in H. destruct (Ascii.eqb_spec d c) as [->|Hd].
  - exists "", s. split; reflexivity.
  - cbn in H. destruct (IH H) as (a & b & -> & Ha).
    exists (String d a), b. split; [reflexivity|].
    cbn. rewrite Ha. destruct (Ascii.eqb_spec d c); [contradiction|reflexivity].
Qed.

Lemma genSplit_loop_nosep k c s :
  hasByte c s = false -> genSplit_loop k s (String c "") = [s].
Proof.
  intros H. destruct k; [reflexivity|].
  cbn [genSplit_loop]. rewrite (Index_absent c s H). reflexivity.
Qed.

Lemma SplitN_4_eq s : SplitN s " " 4 = genSplit_loop 3 s " ".
Proof. reflexivity. Qed.

Lemma countByte_app c a b :
  countByte c (a ++ b) = (countByte c a + countByte c b)%nat.
Proof.
  induction a as [|d a IH]; cbn; [reflexivity|]. rewrite IH. lia.
Qed.

Lemma countByte_absent c s : hasByte c s = false -> countByte c s = 0%nat.
Proof.
  induction s as [|d s IH]; intros H; [reflexivity|].
  cbn in *. apply orb_false_iff in H as [H1 H2].
  rewrite H1, (IH H2). reflexivity.
Qed.

Lemma countByte_sep c a b :
  hasByte c a = false ->
  countByte c (a ++ String c b) = S (countByte c b).
Proof.
  intros H. rewrite countByte_app, (countByte_absent c a H).
  cbn. now rewrite Ascii.eqb_refl.
Qed.

(** What [SplitN] with separator [" "] and limit 4 makes of a line:
    the line is its segments joined by single spaces, and no segment
    but a fourth one holds a space. *)
Lemma SplitN_4_shape s :
  match SplitN s " " 4 with
  | [a] => s = a /\ hasByte " " a = false
  | [a; b] => s = a ++ " " ++ b /\ hasByte " " a = false /\
              hasByte " " b = false
  | [a; b; c] => s = a ++ " " ++ b ++ " " ++ c /\ hasByte " " a = false /\
                 hasByte " " b = false /\ hasByte " " c = false
  | [a; b; c; d] => s = a ++ " " ++ b ++ " " ++ c ++ " " ++ d /\
                    hasByte " " a = false /\ hasByte " " b = false /\
                    hasByte " " c = false
  | _ => False
  end.
Proof.
  rewrite SplitN_4_eq.
  destruct (hasByte " " s) eqn:Hs.
  2:{ rewrite genSplit_loop_nosep by assumption. auto. }
  destruct (hasByte_split _ _ Hs) as (a & s1 & -> & Ha).
  rewrite genSplit_loop_cut by assumption.
  destruct (hasByte " " s1) eqn:Hs1.
  2:{ rewrite genSplit_loop_nosep by assumption. auto. }
  destruct (hasByte_split _ _ Hs1) as (b & s2 & -> & Hb).
  rewrite genSplit_loop_cut by assumption.
  destruct (hasByte " " s2) eqn:Hs2.
  2:{ rewrite genSplit_loop_nosep by assumption. auto. }
  destruct (hasByte_split _ _ Hs2) as (c & d & -> & Hc).
  rewrite genSplit_loop_cut by assumption.
  cbn [genSplit_loop]. auto.
Qed.

(** The number of segments is one more than the number of spaces, up
    to four. *)
Lemma SplitN_4_count s :
  length (SplitN s " " 4) = Nat.min 4 (S (countByte " " s)).
Proof.
  pose proof (SplitN_4_shape s) as H.
  destruct (SplitN s " " 4) as [|a [|b [|c [|d [|e l]]]]]; try contradiction.
  - destruct H as [-> Ha]. now rewrite countByte_absent.
  - destruct H as (-> & Ha & Hb).
    change (" " ++ b) with (String " " b).
    rewrite countByte_sep, (countByte_absent _ b) by assumption. reflexivity.
  - destruct H as (-> & Ha & Hb & Hc).
    change (" " ++ b ++ " " ++ c) with (String " " (b ++ String " " c)).
    rewrite !countByte_sep, (countByte_absent _ c) by assumption. reflexivity.
  - destruct H as (-> & Ha & Hb & Hc).
    change (" " ++ b ++ " " ++ c ++ " " ++ d)
      with (String " " (b ++ String " " (c ++ String " " d))).
    rewrite !countByte_sep by assumption. cbn [length]. lia.
Qed.

End SegmentFacts.

(** X1.  [parseCRILog] returns a record exactly for a line of at least
    four bytes that reads timestamp, space, stream, space, tag, space,
    content, with no space inside the first three and a first segment
    that [time.Parse] accepts; the record then holds that time, that
    stream and the content followed by a newline. *)
Theorem parseCRILog_Ok_iff {Time : Type} {RT : GoRuntime Time}
    (line : string) (msg m : logMessage Time) :
  parseCRILog line msg = Ok m <->
  exists ts tag content,
    line = ts ++ " " ++ stream m ++ " " ++ tag ++ " " ++ content /\
    hasByte " " ts = false /\ hasByte " " (stream m) = false /\
    hasByte " " tag = false /\
    4 <= Go.len line /\
    time_Parse RFC3339Nano ts = inl (timestamp m) /\
    log m = content ++ Bufio.LF.
Proof.
  split.
  - intros H.
    apply parseCRILog_Ok_inv in H as (ts & tag & content & Hlen & Hs & Ht & Hl).
    pose proof (SplitN_4_shape line) as Sh. rewrite Hs in Sh.
    destruct Sh as (E & Hts & Hst & Htag).
    exists ts, tag, content. repeat split; assumption.
  - intros (ts & tag & content & E & Hts & Hst & Htag & Hlen & Ht & Hl).
    rewrite (parseCRILog_four line msg ts (stream m) tag content (timestamp m));
      try assumption.
    + destruct m as [t s l]. cbn in *. now rewrite Hl.
    + rewrite E. now apply SplitN_four.
Qed.

Lemma parseCRILog_Ok_iff_witness :
  exists ts tag content,
    Sample.criLine = ts ++ " " ++ "stdout" ++ " " ++ tag ++ " " ++ content /\
    hasByte " " ts = false /\ hasByte " " "stdout" = false /\
    hasByte " " tag = false /\
    4 <= Go.len Sample.criLine /\
    Sample.parseTime RFC3339Nano ts
    = inl (Sample.mkTime 2016 10 6 0 17 9 669794202 0) /\
    "hello world" ++ Bufio.LF = content ++ Bufio.LF.
Proof.
  apply (proj1 (parseCRILog_Ok_iff (RT := Sample.runtime) Sample.criLine
                  zeroLogMessage
                  (mkLogMessage (Sample.mkTime 2016 10 6 0 17 9 669794202 0)
                     "stdout" ("hello world" ++ Bufio.LF)))).
  vm_compute. reflexivity.
Defined.

(** X2.  [parseCRILog] stops with an index out of range exactly when
    the line has at least four bytes and fewer than three spaces and
    its first segment is a timestamp.  Every other way it stops is a
    failed assertion, a [MalformedRecord]. *)
Theorem parseCRILog_panic_iff {Time : Type} {RT : GoRuntime Time}
    (line : string) (msg : logMessage Time) :
  ((exists i n, parseCRILog line msg = Abort (IndexOutOfRange i n)) <->
   4 <= Go.len line /\ (countByte " " line < 3)%nat /\
   exists t, time_Parse RFC3339Nano (hd "" (Go.SplitN line " " 4)) = inl t) /\
  (forall e, parseCRILog line msg = Abort e ->
             (exists i n, e = IndexOutOfRange i n) \/
             classify e = MalformedRecord).
Proof.
  pose proof (SplitN_4_count line) as Hc.
  pose proof (SplitN_4_length line) as Hn.
  destruct (Z.ltb_spec (Go.len line) 4) as [Hlt|Hge].
  { rewrite (parseCRILog_guard line msg Hlt). split.
    - split; [intros (i & n & H); discriminate | intros [H _]; lia].
    - intros e H. injection H as <-. right. reflexivity. }
  destruct (Go.SplitN line " " 4) as [|first rest] eqn:Hs; [cbn in Hn; lia|].
  cbn [hd]. cbn [length] in Hc, Hn.
  destruct (time_Parse RFC3339Nano first) as [t|err] eqn:Ht.
  2:{ rewrite (parseCRILog_timestamp line msg first rest err Hge Hs Ht). split.
      - split; [intros (i & n & H); discriminate|].
        intros (_ & _ & t & H). discriminate.
      - intros e H. injection H as <-. right. reflexivity. }
  destruct (Nat.ltb_spec (length rest) 3) as [Hr|Hr].
  - destruct (parseCRILog_few_segments line msg first rest t Hge Hs Hr Ht)
      as [i Hi].
    rewrite Hi. split.
    + split; [|intros _; eauto].
      intros _. split; [assumption|]. split; [lia|]. now exists t.
    + intros e H. injection H as <-. left. eauto.
  - destruct rest as [|st [|tag [|content [|extra rest]]]];
      cbn [length] in Hr, Hn; try lia.
    rewrite (parseCRILog_four line msg first st tag content t Hge Hs Ht).
    split.
    + split; [intros (i & n & H); discriminate|].
      intros (_ & Hcount & _). cbn [length] in Hc. lia.
    + intros e H. discriminate.
Qed.

(** ** How reading a file fails *)

Section FailureFacts.
Context {Time : Type} {RT : GoRuntime Time}.
Import Go Bufio.

Local Abbreviation run content acc :=
  (parseLogLine_loop (String.length content) (NewScanner content)
     zeroLogMessage acc).

Lemma Forall2_In_left {A B : Type} (R : A -> B -> Prop) l l' x :
  Forall2 R l l' -> In x l -> exists y, In y l' /\ R x y.
Proof.
  induction 1 as [|a b l l' Hab _ IH]; intros Hin; [contradiction|].
  destruct Hin as [<-|Hin].
  - exists b. cbn. auto.
  - destruct (IH Hin) as (y & Hy & Hxy). exists y. cbn. auto.
Qed.

Lemma Forall2_In_right {A B : Type} (R : A -> B -> Prop) l l' y :
  Forall2 R l l' -> In y l' -> exists x, In x l /\ R x y.
Proof.
  induction 1 as [|a b l l' Hab _ IH]; intros Hin; [contradiction|].
  destruct Hin as [<-|Hin].
  - exists a. cbn. auto.
  - destruct (IH Hin) as (x & Hx & Hxy). exists x. cbn. auto.
Qed.


Lemma physicalLines_from_nil content : forall cur,
  physicalLines_from cur content = [] -> cur = "" /\ content = "".
Proof.
  induction content as [|c rest IH]; intros cur H.
  - destruct cur; [auto | discriminate].
  - cbn in H. destruct (Ascii.eqb c "010"); [discriminate|].
    apply IH in H as [H _]. destruct cur; discriminate.
Qed.

Lemma dropCR_app_CR l : dropCR (l ++ String CR "") = l.
Proof.
  induction l as [|c l IH]; [reflexivity|].
  cbn [append dropCR]. destruct (l ++ String CR "") as [|d r] eqn:E.
  - destruct l; discriminate.
  - now rewrite IH.
Qed.

Lemma dropCR_id l : hasByte CR l = false -> dropCR l = l.
Proof.
  induction l as [|c l IH]; intros H; [reflexivity|].
  cbn in H. apply orb_false_iff in H as [H1 H2].
  cbn [dropCR]. destruct l as [|d r]; [now rewrite H1|].
  now rewrite (IH H2).
Qed.

Lemma containsMessage_app (a b : list (logMessage Time)) p s :
  containsMessage (a ++ b) p s = containsMessage a p s || containsMessage b p s.
Proof.
  unfold containsMessage. induction a as [|m a IH]; [reflexivity|].
  cbn [app]. rewrite !verifyLogContents_scan_cons, IH.
  now rewrite orb_assoc.
Qed.

Lemma containsMessage_In (msgs : list (logMessage Time)) m :
  In m msgs -> containsMessage msgs (log m) (stream m) = true.
Proof.
  unfold containsMessage. induction msgs as [|m' msgs IH]; intros H;
    [contradiction|].
  rewrite verifyLogContents_scan_cons. destruct H as [->|H].
  - now rewrite !String.eqb_refl.
  - rewrite (IH H). apply orb_true_r.
Qed.

Lemma verifyLogContents_Ok fs podConfig logPath payload s
    (msgs : list (logMessage Time)) :
  parseLogLine fs podConfig logPath = Ok msgs ->
  containsMessage msgs payload s = true ->
  verifyLogContents fs podConfig logPath payload s = Ok tt.
Proof.
  intros H C. unfold verifyLogContents. rewrite H. cbn [bind].
  now rewrite C.
Qed.

Lemma verifyLogContents_Ok_inv fs podConfig logPath payload s :
  verifyLogContents fs podConfig logPath payload s = Ok tt ->
  exists msgs : list (logMessage Time),
    parseLogLine fs podConfig logPath = Ok msgs /\
    containsMessage msgs payload s = true.
Proof.
  unfold verifyLogContents.
  destruct (parseLogLine fs podConfig logPath) as [msgs|e]; [|discriminate].
  cbn [bind]. destruct (containsMessage msgs payload s) eqn:C;
    [|discriminate].
  intros _. now exists msgs.
Qed.

End FailureFacts.



(** X4.  Reading stops at the first line that does not decode: when
    the lines before it decode, [parseLogLine] fails with the failure
    of that line, whatever follows it in the file. *)
Theorem parseLogLine_first_failure {Time : Type} {RT : GoRuntime Time}
    (fs : FileSystem) (podConfig : PodSandboxConfig) (logPath : string)
    (good : list string) (bad rest : string)
    (ms : list (logMessage Time)) (e : abort) :
  fs (filepath_Join (LogDirectory podConfig) logPath)
  = inl (unlines good ++ bad ++ Bufio.LF ++ rest) ->
  Forall scannable good -> scannable bad ->
  decodeEach (map Bufio.dropCR good) = Ok ms ->
  decodeLine (Bufio.dropCR bad) zeroLogMessage = Abort e ->
  parseLogLine fs podConfig logPath = Abort e.
Proof.
  intros Hf Hgood Hbad Hms He.
  rewrite (parseLogLine_open _ _ _ _ Hf).
  rewrite (run_unlines good _ [] Hgood), Hms. cbn [bind app].
  rewrite (run_line bad rest ms Hbad), He. reflexivity.
Qed.

Lemma parseLogLine_first_failure_witness :
  parseLogLine (RT := Sample.runtime)
    (fun _ => inl (unlines [Sample.criLine] ++ "oops" ++ Bufio.LF
                   ++ Sample.dockerLine))
    Sample.podConfig "x.log"
  = Abort (AssertionFailure "failed to parse timeStamp: %v"
             "parsing time: cannot parse oops").
Proof.
  apply (parseLogLine_first_failure (RT := Sample.runtime) _ _ _
           [Sample.criLine] "oops" Sample.dockerLine
           [mkLogMessage (Sample.mkTime 2016 10 6 0 17 9 669794202 0)
              "stdout" ("hello world" ++ Bufio.LF)]).
  - reflexivity.
  - constructor; [split; vm_compute; reflexivity | constructor].
  - split; vm_compute; reflexivity.
  - vm_compute. reflexivity.
  - vm_compute. reflexivity.
Defined.

(** X5.  A file with a line that is empty, or shorter than four bytes
    and not starting with an opening brace, is never read to the end:
    [parseLogLine] fails. *)
Theorem parseLogLine_short_line {Time : Type} {RT : GoRuntime Time}
    (fs : FileSystem) (podConfig : PodSandboxConfig) (logPath : string)
    (content line : string) :
  fs (filepath_Join (LogDirectory podConfig) logPath) = inl content ->
  In line (physicalLines content) ->
  detect (Bufio.dropCR line) = EncodingB ->
  Go.len (Bufio.dropCR line) < 4 ->
  exists e, parseLogLine fs podConfig logPath = Abort e.
Proof.
  intros Hf Hin HB Hlen.
  destruct (parseLogLine fs podConfig logPath) as [msgs|e] eqn:H;
    [|now exists e].
  exfalso.
  destruct (parseLogLine_Ok_inv _ _ _ _ H) as (content' & Hf' & _ & Hdec).
  rewrite Hf in Hf'. injection Hf' as <-.
  apply decodeEach_map_Forall2 in Hdec.
  destruct (Forall2_In_left _ _ _ _ Hdec Hin) as (m & _ & Hm).
  rewrite decodeLine_detect, HB, parseCRILog_guard in Hm by assumption.
  discriminate.
Qed.

Lemma parseLogLine_short_line_witness :
  exists e,
    parseLogLine (RT := Sample.runtime)
      (fun _ => inl (Sample.criLine ++ Bufio.LF ++ Bufio.LF))
      Sample.podConfig "x.log" = Abort e.
Proof.
  apply (parseLogLine_short_line (RT := Sample.runtime) _ _ _
           (Sample.criLine ++ Bufio.LF ++ Bufio.LF) "").
  - reflexivity.
  - vm_compute. auto.
  - reflexivity.
  - reflexivity.
Defined.

(** X6.  When [parseLogLine] returns, the sequence is empty exactly
    when the file is empty. *)
Theorem parseLogLine_empty_iff {Time : Type} {RT : GoRuntime Time}
    (fs : FileSystem) (podConfig : PodSandboxConfig) (logPath : string)
    (content : string) (msgs : list (logMessage Time)) :
  fs (filepath_Join (LogDirectory podConfig) logPath) = inl content ->
  parseLogLine fs podConfig logPath = Ok msgs ->
  (msgs = [] <-> content = "").
Proof.
  intros Hf H. split.
  - intros ->.
    destruct (parseLogLine_Ok_inv _ _ _ _ H) as (content' & Hf' & _ & Hdec).
    rewrite Hf in Hf'. injection Hf' as <-.
    apply decodeEach_length in Hdec. rewrite length_map in Hdec.
    destruct (physicalLines content) as [|l ls] eqn:E; [|discriminate].
    now apply physicalLines_from_nil in E.
  - intros ->. rewrite (parseLogLine_open _ _ _ _ Hf) in H.
    cbn in H. now injection H as <-.
Qed.

Lemma parseLogLine_empty_iff_witness :
  ([] = [] :> list (logMessage Sample.Time)) <-> "" = "".
Proof.
  apply (parseLogLine_empty_iff (RT := Sample.runtime)
           Sample.fs Sample.podConfig "empty.log" "" []).
  - vm_compute. reflexivity.
  - vm_compute. reflexivity.
Defined.

(** X7.  Lines that end in carriage return and newline are decoded
    without either: a file of such lines gives the line-by-line
    decoding of the lines themselves. *)
Theorem parseLogLine_CRLF {Time : Type} {RT : GoRuntime Time}
    (fs : FileSystem) (podConfig : PodSandboxConfig) (logPath : string)
    (ls : list string) :
  Forall (fun l => hasByte "010" l = false /\
                   Go.len l + 1 < Bufio.MaxScanTokenSize) ls ->
  fs (filepath_Join (LogDirectory podConfig) logPath)
  = inl (unlines (map (fun l => l ++ String Bufio.CR "") ls)) ->
  parseLogLine fs podConfig logPath = decodeEach ls.
Proof.
  intros Hls Hf.
  set (ls' := map (fun l => l ++ String Bufio.CR "") ls) in *.
  assert (Hnl : Forall (fun l => hasByte "010" l = false) ls').
  { unfold ls'. apply Forall_map. eapply Forall_impl; [|exact Hls].
    intros l [H _]. now rewrite hasByte_app, H. }
  assert (Hsc : Forall scannable ls').
  { unfold ls'. apply Forall_map. eapply Forall_impl; [|exact Hls].
    intros l [H L]. split.
    - now rewrite hasByte_app, H.
    - rewrite len_app. change (Go.len (String Bufio.CR "")) with 1. lia. }
  assert (E : physicalLines (unlines ls') = ls').
  { rewrite <- (app_empty_r (unlines ls')).
    rewrite physicalLines_unlines by auto. apply app_nil_r. }
  rewrite (parseLogLine_scannable _ _ _ _ Hf) by now rewrite E.
  rewrite E. unfold ls'. rewrite map_map.
  f_equal. rewrite <- (map_id ls) at 2. apply map_ext.
  intros l. apply dropCR_app_CR.
Qed.

Lemma parseLogLine_CRLF_witness :
  parseLogLine (RT := Sample.runtime)
    (fun _ => inl (unlines (map (fun l => l ++ String Bufio.CR "")
                              [Sample.criLine])))
    Sample.podConfig "x.log"
  = decodeEach [Sample.criLine].
Proof.
  apply (parseLogLine_CRLF (RT := Sample.runtime) _ _ _ [Sample.criLine]).
  - constructor; [split; vm_compute; reflexivity | constructor].
  - reflexivity.
Defined.

(** X8.  A line of 64 KiB or more makes [parseLogLine] fail with the
    scanner's error once the lines before it have decoded; nothing of
    the file is returned. *)
Theorem parseLogLine_line_too_long {Time : Type} {RT : GoRuntime Time}
    (fs : FileSystem) (podConfig : PodSandboxConfig) (logPath : string)
    (good : list string) (long rest : string)
    (ms : list (logMessage Time)) :
  fs (filepath_Join (LogDirectory podConfig) logPath)
  = inl (unlines good ++ long ++ rest) ->
  Forall scannable good ->
  hasByte "010" long = false -> Bufio.MaxScanTokenSize <= Go.len long ->
  decodeEach (map Bufio.dropCR good) = Ok ms ->
  parseLogLine fs podConfig logPath
  = Abort (AssertionFailure "failed to read log by row: %v" Bufio.ErrTooLong).
Proof.
  intros Hf Hgood Hnl Hlong Hms.
  rewrite (parseLogLine_open _ _ _ _ Hf).
  rewrite (run_unlines good _ [] Hgood), Hms. cbn [bind app].
  now apply run_too_long.
Qed.

Lemma parseLogLine_line_too_long_witness :
  let long := string_of_list_ascii (repeat "a"%char (Z.to_nat 65536)) in
  parseLogLine (RT := Sample.runtime)
    (fun _ => inl (unlines [Sample.criLine] ++ long ++ Bufio.LF))
    Sample.podConfig "x.log"
  = Abort (AssertionFailure "failed to read log by row: %v" Bufio.ErrTooLong).
Proof.
  intros long.
  apply (parseLogLine_line_too_long (RT := Sample.runtime) _ _ _
           [Sample.criLine] long Bufio.LF
           [mkLogMessage (Sample.mkTime 2016 10 6 0 17 9 669794202 0)
              "stdout" ("hello world" ++ Bufio.LF)]).
  - reflexivity.
  - constructor; [split; vm_compute; reflexivity | constructor].
  - vm_compute. reflexivity.
  - vm_compute. discriminate.
  - vm_compute. reflexivity.
Defined.

(** X9.  A check that passes keeps passing when lines are added to the
    file: if [verifyLogContents] passes on a file of whole lines, it
    passes on every file that starts with these lines and can be
    read. *)
Theorem verifyLogContents_growth {Time : Type} {RT : GoRuntime Time}
    (fs fs' : FileSystem) (podConfig podConfig' : PodSandboxConfig)
    (logPath logPath' : string) (ls : list string) (rest : string)
    (payload : string) (s : streamType) (msgs' : list (logMessage Time)) :
  Forall (fun l => hasByte "010" l = false) ls ->
  fs (filepath_Join (LogDirectory podConfig) logPath) = inl (unlines ls) ->
  fs' (filepath_Join (LogDirectory podConfig') logPath')
  = inl (unlines ls ++ rest) ->
  verifyLogContents fs podConfig logPath payload s = Ok tt ->
  parseLogLine fs' podConfig' logPath' = Ok msgs' ->
  verifyLogContents fs' podConfig' logPath' payload s = Ok tt.
Proof.
  intros Hls Hf Hf' Hv Hp'.
  apply verifyLogContents_Ok_inv in Hv as (msgs & Hp & C).
  destruct (parseLogLine_Ok_inv _ _ _ _ Hp) as (c & Hc & _ & Hdec).
  rewrite Hf in Hc. injection Hc as <-.
  destruct (parseLogLine_Ok_inv _ _ _ _ Hp') as (c' & Hc' & _ & Hdec').
  rewrite Hf' in Hc'. injection Hc' as <-.
  rewrite <- (app_empty_r (unlines ls)) in Hdec.
  rewrite physicalLines_unlines_rest, map_app in Hdec, Hdec' by assumption.
  cbn [physicalLines physicalLines_from map] in Hdec.
  rewrite app_nil_r in Hdec.
  apply decodeEach_app_inv in Hdec' as (ms1 & ms2 & E1 & _ & ->).
  rewrite Hdec in E1. injection E1 as <-.
  apply (verifyLogContents_Ok _ _ _ _ _ _ Hp').
  now rewrite containsMessage_app, C.
Qed.

Lemma verifyLogContents_growth_witness :
  verifyLogContents (RT := Sample.runtime)
    (fun _ => inl (unlines [Sample.criLine] ++ Sample.dockerLine))
    Sample.podConfig "x.log" ("hello world" ++ Bufio.LF) stdoutType
  = Ok tt.
Proof.
  apply (verifyLogContents_growth (RT := Sample.runtime)
           (fun _ => inl (unlines [Sample.criLine])) _
           Sample.podConfig Sample.podConfig "x.log" "x.log"
           [Sample.criLine] Sample.dockerLine _ _
           [mkLogMessage (Sample.mkTime 2016 10 6 0 17 9 669794202 0)
              "stdout" ("hello world" ++ Bufio.LF);
            mkLogMessage (Sample.mkTime 2016 10 20 18 39 20 576064430 0)
              "stdout" ("hello World" ++ Bufio.LF)]).
  - constructor; [reflexivity | constructor].
  - reflexivity.
  - reflexivity.
  - vm_compute. reflexivity.
  - vm_compute. reflexivity.
Defined.

(** X10.  When the file is read, [verifyLogContents] passes for the
    content and the stream of each of its CRI lines: for a line
    timestamp, space, stream, space, tag, space, content that holds no
    carriage return, the query (content followed by a newline, stream)
    is found. *)
Theorem verifyLogContents_CRI_line {Time : Type} {RT : GoRuntime Time}
    (fs : FileSystem) (podConfig : PodSandboxConfig) (logPath : string)
    (content : string) (msgs : list (logMessage Time))
    (ts st tag c : string) :
  let line := ts ++ " " ++ st ++ " " ++ tag ++ " " ++ c in
  fs (filepath_Join (LogDirectory podConfig) logPath) = inl content ->
  parseLogLine fs podConfig logPath = Ok msgs ->
  In line (physicalLines content) ->
  hasByte " " ts = false -> hasByte " " st = false ->
  hasByte " " tag = false -> hasByte Bufio.CR line = false ->
  detect line = EncodingB ->
  verifyLogContents fs podConfig logPath (c ++ Bufio.LF) st = Ok tt.
Proof.
  intros line Hf Hp Hin Hts Hst Htag Hcr HB.
  destruct (parseLogLine_Ok_inv _ _ _ _ Hp) as (content' & Hf' & _ & Hdec).
  rewrite Hf in Hf'. injection Hf' as <-.
  apply decodeEach_map_Forall2 in Hdec.
  destruct (Forall2_In_left _ _ _ _ Hdec Hin) as (m & Hm & Hd).
  rewrite (dropCR_id _ Hcr), decodeLine_detect, HB in Hd.
  apply parseCRILog_Ok_inv in Hd as (ts' & tag' & c' & _ & Hs & _ & Hl).
  unfold line in Hs. rewrite SplitN_four in Hs by assumption.
  injection Hs as _ Est _ Ec.
  apply (verifyLogContents_Ok _ _ _ _ _ _ Hp).
  rewrite Ec, <- Hl, Est. now apply containsMessage_In.
Qed.

Lemma verifyLogContents_CRI_line_witness :
  verifyLogContents (RT := Sample.runtime) Sample.fs Sample.podConfig
    "cri.log" ("bye" ++ Bufio.LF) "stderr" = Ok tt.
Proof.
  apply (verifyLogContents_CRI_line (RT := Sample.runtime)
           Sample.fs Sample.podConfig "cri.log"
           (Sample.criLine ++ Bufio.LF
            ++ "2016-10-06T00:17:10.113242941Z stderr F bye" ++ Bufio.LF)
           [mkLogMessage (Sample.mkTime 2016 10 6 0 17 9 669794202 0)
              "stdout" ("hello world" ++ Bufio.LF);
            mkLogMessage (Sample.mkTime 2016 10 6 0 17 10 113242941 0)
              "stderr" ("bye" ++ Bufio.LF)]
           "2016-10-06T00:17:10.113242941Z" "stderr" "F" "bye").
  - vm_compute. reflexivity.
  - vm_compute. reflexivity.
  - vm_compute. auto.
  - reflexivity.
  - reflexivity.
  - reflexivity.
  - vm_compute. reflexivity.
  - reflexivity.
Defined.

(** ** Containers and mounts *)

Section LookupFacts.

Lemma containerFound_skip pre rest id :
  Forall (fun c => Id c <> id) pre ->
  containerFound (map Some pre ++ rest) id = containerFound rest id.
Proof.
  induction 1 as [|c pre Hc _ IH]; [reflexivity|].
  cbn. destruct (String.eqb_spec (Id c) id); [contradiction | exact IH].
Qed.

(** The three ways a list of container pointers can look to
    [containerFound]. *)
Lemma containerFound_cases cs id :
  (exists pre c post,
      cs = (map Some pre ++ Some c :: post)%list /\ Id c = id /\
      Forall (fun c => Id c <> id) pre) \/
  (exists l, cs = map Some l /\ Forall (fun c => Id c <> id) l) \/
  (exists pre post,
      cs = (map Some pre ++ None :: post)%list /\
      Forall (fun c => Id c <> id) pre).
Proof.
  induction cs as [|[c|] cs IH].
  - right. left. exists []. auto.
  - destruct (String.eqb_spec (Id c) id) as [E|N].
    + left. exists [], c, cs. auto.
    + destruct IH as [(pre & c' & post & -> & E & F)
                     |[(l & -> & F)|(pre & post & -> & F)]].
      * left. exists (c :: pre), c', post. cbn. auto.
      * right. left. exists (c :: l). cbn. auto.
      * right. right. exists (c :: pre), post. cbn. auto.
  - right. right. exists [], cs. auto.
Qed.

Lemma mountFound_skip pre rest name :
  Forall (fun m => Name m <> name) pre ->
  mountFound (map Some pre ++ rest) name = mountFound rest name.
Proof.
  induction 1 as [|m pre Hm _ IH]; [reflexivity|].
  cbn. destruct (String.eqb_spec (Name m) name); [contradiction | exact IH].
Qed.

Lemma getContainerVolumeNamed_skip pre rest :
  Forall (fun v => GetName v = "") pre ->
  getContainerVolumeNamed (pre ++ rest) = getContainerVolumeNamed rest.
Proof.
  induction 1 as [|v pre Hv _ IH]; [reflexivity|].
  cbn [app getContainerVolumeNamed]. rewrite Hv. exact IH.
Qed.

Lemma getContainerVolumeNamed_cases mounts :
  (Forall (fun v => GetName v = "") mounts /\
   getContainerVolumeNamed mounts = "") \/
  (exists pre v post,
      mounts = (pre ++ v :: post)%list /\
      Forall (fun v => GetName v = "") pre /\
      GetName v <> "" /\ getContainerVolumeNamed mounts = GetName v).
Proof.
  induction mounts as [|v mounts IH].
  - left. auto.
  - cbn [getContainerVolumeNamed].
    destruct (String.eqb_spec (GetName v) "") as [E|N]; cbn [negb].
    + destruct IH as [[F G]|(pre & v' & post & -> & F & N & G)].
      * left. auto.
      * right. exists (v :: pre), v', post. cbn. auto.
    + right. exists [], v, mounts. auto.
Qed.

End LookupFacts.

(** X11.  [containerFound] returns true exactly when the first pointer
    that is nil or has the identifier is a container with the
    identifier; it returns false exactly when no pointer is nil and no
    container has the identifier; it stops on a nil pointer exactly
    when one comes before any container with the identifier.  What
    follows the first match is not looked at. *)
Theorem containerFound_spec (cs : list (option Container)) (id : string) :
  (containerFound cs id = Returns true <->
   exists pre c post,
     cs = (map Some pre ++ Some c :: post)%list /\ Id c = id /\
     Forall (fun c => Id c <> id) pre) /\
  (containerFound cs id = Returns false <->
   exists l, cs = map Some l /\ Forall (fun c => Id c <> id) l) /\
  (containerFound cs id = NilDereference <->
   exists pre post,
     cs = (map Some pre ++ None :: post)%list /\
     Forall (fun c => Id c <> id) pre).
Proof.
  assert (T : forall pre c post,
             Id c = id -> Forall (fun c => Id c <> id) pre ->
             containerFound (map Some pre ++ Some c :: post) id = Returns true).
  { intros pre c post E F. rewrite containerFound_skip by assumption.
    cbn. rewrite <- E. now rewrite String.eqb_refl. }
  assert (F0 : forall l,
             Forall (fun c => Id c <> id) l ->
             containerFound (map Some l) id = Returns false).
  { intros l F. rewrite <- (app_nil_r (map Some l)).
    now rewrite containerFound_skip. }
  assert (N : forall pre post,
             Forall (fun c => Id c <> id) pre ->
             containerFound (map Some pre ++ None :: post) id = NilDereference).
  { intros pre post F. now rewrite containerFound_skip. }
  assert (C : forall r, containerFound cs id = r ->
             match r with
             | Returns true =>
                 exists pre c post,
                   cs = (map Some pre ++ Some c :: post)%list /\ Id c = id /\
                   Forall (fun c => Id c <> id) pre
             | Returns false =>
                 exists l, cs = map Some l /\ Forall (fun c => Id c <> id) l
             | NilDereference =>
                 exists pre post,
                   cs = (map Some pre ++ None :: post)%list /\
                   Forall (fun c => Id c <> id) pre
             end).
  { intros r H.
    destruct (containerFound_cases cs id)
      as [(pre & c & post & -> & E & F)|[(l & -> & F)|(pre & post & -> & F)]].
    - rewrite (T pre c post E F) in H. subst r. eauto 6.
    - rewrite (F0 l F) in H. subst r. eauto.
    - rewrite (N pre post F) in H. subst r. eauto. }
  split; [|split]; split.
  - exact (C (Returns true)).
  - intros (pre & c & post & -> & E & F). now apply T.
  - exact (C (Returns false)).
  - intros (l & -> & F). now apply F0.
  - exact (C NilDereference).
  - intros (pre & post & -> & F). now apply N.
Qed.

(** X12.  [getContainerVolumeNamed] returns the first name that is not
    empty, nil pointers counting as unnamed, and so never stops on a
    nil pointer; it returns the empty string exactly when no mount has
    a name. *)
Theorem getContainerVolumeNamed_spec (mounts : list (option Mount)) :
  (getContainerVolumeNamed mounts = "" <->
   Forall (fun v => GetName v = "") mounts) /\
  (forall name, name <> "" ->
     (getContainerVolumeNamed mounts = name <->
      exists pre v post,
        mounts = (pre ++ v :: post)%list /\
        Forall (fun v => GetName v = "") pre /\ GetName v = name)).
Proof.
  split.
  - destruct (getContainerVolumeNamed_cases mounts)
      as [[F G]|(pre & v & post & -> & F & N & G)].
    + split; auto.
    + rewrite G. split; [contradiction|].
      intros H. apply Forall_app in H as [_ H].
      inversion H; subst. contradiction.
  - intros name Hname. split.
    + intros H.
      destruct (getContainerVolumeNamed_cases mounts)
        as [[F G]|(pre & v & post & -> & F & N & G)]; [congruence|].
      exists pre, v, post. repeat split; auto. congruence.
    + intros (pre & v & post & -> & F & <-).
      rewrite getContainerVolumeNamed_skip by assumption.
      cbn [getContainerVolumeNamed].
      destruct (String.eqb_spec (GetName v) ""); [contradiction|reflexivity].
Qed.

Lemma getContainerVolumeNamed_spec_witness :
  getContainerVolumeNamed [None; Some (mkMount ""); Some (mkMount "vol");
                           Some (mkMount "other")] = "vol".
Proof.
  apply (proj2 (getContainerVolumeNamed_spec _) "vol"); [discriminate|].
  exists [None; Some (mkMount "")], (Some (mkMount "vol")),
    [Some (mkMount "other")].
  repeat split. repeat constructor.
Defined.

(** X13.  On a list of mounts without nil pointers that is not empty,
    the name [getContainerVolumeNamed] returns is a name [mountFound]
    finds; this holds for the empty name it returns when no mount is
    named, too. *)
Theorem mountFound_getContainerVolumeNamed (l : list Mount) :
  l <> [] ->
  mountFound (map Some l) (getContainerVolumeNamed (map Some l))
  = Returns true.
Proof.
  intros Hne.
  destruct (getContainerVolumeNamed_cases (map Some l))
    as [[F G]|(pre & v & post & E & F & N & G)].
  - rewrite G. destruct l as [|m l]; [congruence|].
    inversion F as [|? ? Hm _]; subst. cbn in Hm. cbn.
    now rewrite Hm.
  - rewrite G. clear G.
    revert pre E F. induction l as [|m l IH]; intros pre E F.
    + destruct pre; discriminate.
    + destruct pre as [|p pre]; cbn in E.
      * injection E as <- _. cbn. now rewrite String.eqb_refl.
      * injection E as <- E. inversion F as [|? ? Hp F']; subst.
        cbn in Hp. cbn [map mountFound].
        destruct (String.eqb_spec (Name m) (GetName v)) as [_|_];
          [reflexivity|].
        apply (IH ltac:(destruct l; [destruct pre; discriminate|discriminate])
                 pre E F').
Qed.

Lemma mountFound_getContainerVolumeNamed_witness :
  mountFound (map Some [mkMount ""; mkMount "vol"])
    (getContainerVolumeNamed (map Some [mkMount ""; mkMount "vol"]))
  = Returns true.
Proof.
  apply (mountFound_getContainerVolumeNamed [mkMount ""; mkMount "vol"]).
  discriminate.
Defined.

(** X14.  One more line, one more record: when a file of whole lines
    is read, the file with one further decodable line added gives the
    same records followed by the record of the new line. *)
Theorem parseLogLine_append_line {Time : Type} {RT : GoRuntime Time}
    (fs fs' : FileSystem) (podConfig podConfig' : PodSandboxConfig)
    (logPath logPath' : string) (ls : list string) (l : string)
    (msgs : list (logMessage Time)) (m : logMessage Time) :
  Forall (fun l => hasByte "010" l = false) ls ->
  fs (filepath_Join (LogDirectory podConfig) logPath) = inl (unlines ls) ->
  fs' (filepath_Join (LogDirectory podConfig') logPath')
  = inl (unlines ls ++ l ++ Bufio.LF) ->
  parseLogLine fs podConfig logPath = Ok msgs ->
  scannable l ->
  decodeLine (Bufio.dropCR l) zeroLogMessage = Ok m ->
  parseLogLine fs' podConfig' logPath' = Ok (msgs ++ [m])%list.
Proof.
  intros Hls Hf Hf' Hp Hl Hm.
  destruct (parseLogLine_Ok_inv _ _ _ _ Hp) as (c & Hc & Hall & Hdec).
  rewrite Hf in Hc. injection Hc as <-.
  assert (E : physicalLines (unlines ls) = ls).
  { rewrite <- (app_empty_r (unlines ls)).
    rewrite physicalLines_unlines by auto. apply app_nil_r. }
  rewrite E in Hall, Hdec.
  rewrite (parseLogLine_open _ _ _ _ Hf').
  rewrite (run_unlines ls _ [] Hall), Hdec. cbn [bind app].
  rewrite (run_line l "" msgs Hl), Hm. reflexivity.
Qed.

Lemma parseLogLine_append_line_witness :
  parseLogLine (RT := Sample.runtime)
    (fun _ => inl (unlines [Sample.criLine] ++ Sample.dockerLine ++ Bufio.LF))
    Sample.podConfig "x.log"
  = Ok [mkLogMessage (Sample.mkTime 2016 10 6 0 17 9 669794202 0)
          "stdout" ("hello world" ++ Bufio.LF);
        mkLogMessage (Sample.mkTime 2016 10 20 18 39 20 576064430 0)
          "stdout" ("hello World" ++ Bufio.LF)].
Proof.
  apply (parseLogLine_append_line (RT := Sample.runtime)
           (fun _ => inl (unlines [Sample.criLine])) _
           Sample.podConfig Sample.podConfig "x.log" "x.log"
           [Sample.criLine] Sample.dockerLine
           [mkLogMessage (Sample.mkTime 2016 10 6 0 17 9 669794202 0)
              "stdout" ("hello world" ++ Bufio.LF)]).
  - constructor; [reflexivity | constructor].
  - reflexivity.
  - reflexivity.
  - vm_compute. reflexivity.
  - split; vm_compute; reflexivity.
  - vm_compute. reflexivity.
Defined.

(** X15.  When the file is read, [verifyLogContents] passes for the log
    and the stream of each of its Docker JSON lines, as
    [json.Unmarshal] reads them. *)
Theorem verifyLogContents_JSON_line {Time : Type} {RT : GoRuntime Time}
    (fs : FileSystem) (podConfig : PodSandboxConfig) (logPath : string)
    (content line : string) (msgs : list (logMessage Time))
    (l : JSONLog Time) :
  fs (filepath_Join (LogDirectory podConfig) logPath) = inl content ->
  parseLogLine fs podConfig logPath = Ok msgs ->
  In line (physicalLines content) ->
  detect (Bufio.dropCR line) = EncodingA ->
  json_Unmarshal (Bufio.dropCR line) = inl l ->
  verifyLogContents fs podConfig logPath (Log l) (Stream l) = Ok tt.
Proof.
  intros Hf Hp Hin HA Hl.
  destruct (parseLogLine_Ok_inv _ _ _ _ Hp) as (content' & Hf' & _ & Hdec).
  rewrite Hf in Hf'. injection Hf' as <-.
  apply decodeEach_map_Forall2 in Hdec.
  destruct (Forall2_In_left _ _ _ _ Hdec Hin) as (m & Hm & Hd).
  rewrite decodeLine_detect, HA, (parseDockerJSONLog_ok _ _ _ Hl) in Hd.
  injection Hd as <-.
  apply (verifyLogContents_Ok _ _ _ _ _ _ Hp).
  exact (containsMessage_In msgs _ Hm).
Qed.

Lemma verifyLogContents_JSON_line_witness :
  verifyLogContents (RT := Sample.runtime) Sample.fs Sample.podConfig
    "docker.log" ("hello World" ++ Bufio.LF) "stdout" = Ok tt.
Proof.
  apply (verifyLogContents_JSON_line (RT := Sample.runtime)
           Sample.fs Sample.podConfig "docker.log"
           (Sample.dockerLine ++ Bufio.LF) Sample.dockerLine
           [mkLogMessage (Sample.mkTime 2016 10 20 18 39 20 576064430 0)
              "stdout" ("hello World" ++ Bufio.LF)]
           (mkJSONLog ("hello World" ++ Bufio.LF) "stdout"
              (Sample.mkTime 2016 10 20 18 39 20 576064430 0))).
  - vm_compute. reflexivity.
  - vm_compute. reflexivity.
  - vm_compute. auto.
  - reflexivity.
  - vm_compute. reflexivity.
Defined.
